(** * secure-shell-server: policy model and secure runner

    A shallow embedding of [pkg/config] (the policy, its JSON decoding and
    the top-level allow check) and of [pkg/runner/runner.go] (the direct
    [Run] path and the script path [RunScript] with its exec hook),
    followed by the properties of the specification that concern them. *)

From Stdlib Require Import ZArith Lia Ascii String.
From stdpp Require Import base option list strings gmap.

Local Open Scope string_scope.
Local Open Scope Z_scope.
Set Warnings "-register-all".

(** ** Go errors *)

(** A Go [error] value.  Constructors follow the ways the sources build
    one: [errors.New], [fmt.Errorf] with a [%w] verb, the one [fmt.Errorf]
    with a [%q] verb in [Run], and the error types of [encoding/json]. *)
Inductive error : Type :=
| errorString (s : string)
| wrapError (msg : string) (err : option error)
| notPermitted (cmd : string)
| SyntaxError (msg : string)
| UnmarshalTypeError (value : string) (gotype : string).

(** [T, error] results of the decoding functions. *)
Inductive result (A : Type) : Type :=
| Ok (a : A)
| Err (e : error).
Arguments Ok {A} a.
Arguments Err {A} e.

Global Instance result_ret : MRet result := λ A a, Ok a.
Global Instance result_bind : MBind result := λ A B f m,
  match m with Ok a => f a | Err e => Err e end.
Global Instance result_fmap : FMap result := λ A B f m,
  match m with Ok a => Ok (f a) | Err e => Err e end.

Definition is_Ok {A} (r : result A) : bool :=
  match r with Ok _ => true | Err _ => false end.

(** ** JSON values, as [encoding/json] reads and writes them *)
Module Json.

(** A JSON document after parsing.  [Int] is a number written as an
    integer literal, [Float] any other number literal (kept as text);
    [Str] carries the string as the decoder delivers it; an object keeps
    its members in document order, repeated keys included. *)
Inductive Value : Type :=
| Null
| Bool (b : bool)
| Int (z : Z)
| Float (lit : string)
| Str (s : string)
| Arr (elems : list Value)
| Obj (members : list (string * Value)).

(** [json.RawMessage]: the undecoded bytes of a member.  [None] is the
    zero value (no bytes at all), which is not a JSON document. *)
Definition RawMessage := option Value.

(** The Go name of the kind of a value, as [UnmarshalTypeError.Value]. *)
Definition kind (v : Value) : string :=
  match v with
  | Null => "null" | Bool _ => "bool" | Int _ | Float _ => "number"
  | Str _ => "string" | Arr _ => "array" | Obj _ => "object"
  end.

Definition upper (c : ascii) : ascii :=
  let n := N_of_ascii c in
  if ((97 <=? n) && (n <=? 122))%N then ascii_of_N (n - 32) else c.

(** Key folding of the decoder: ASCII letters are upper-cased; the two
    non-ASCII runes that fold to an ASCII letter, U+212A (Kelvin sign) and
    U+017F (long s), are replaced by [K] and [S].  Other runes never fold
    to ASCII and are left as they are, which is all that matters against
    the (ASCII) member names of the structs below. *)
Fixpoint foldName (s : string) : string :=
  match s with
  | EmptyString => EmptyString
  | String "226"%char (String "132"%char (String "170"%char r)) =>
      String "K"%char (foldName r)
  | String "197"%char (String "191"%char r) => String "S"%char (foldName r)
  | String c r => String (upper c) (foldName r)
  end.

(** A key selects the struct member of that JSON name: exactly, or else
    up to folding.  No two members of one struct below share a folded
    name, so this is one test. *)
Definition matches (name key : string) : bool :=
  String.eqb (foldName key) (foldName name).

Definition minInt : Z := - 2 ^ 63.
Definition maxInt : Z := 2 ^ 63 - 1.

(** [json.Unmarshal] into a Go [string] holding [cur]: [null] leaves the
    variable as it is. *)
Definition Unmarshal_string (v : Value) (cur : string) : result string :=
  match v with
  | Null => Ok cur
  | Str s => Ok s
  | _ => Err (UnmarshalTypeError (kind v) "string")
  end.

(** [json.Unmarshal] into a Go [int] (64 bits) holding [cur]. *)
Definition Unmarshal_int (v : Value) (cur : Z) : result Z :=
  match v with
  | Null => Ok cur
  | Int z =>
      if (minInt <=? z) && (z <=? maxInt) then Ok z
      else Err (UnmarshalTypeError "number" "int")
  | _ => Err (UnmarshalTypeError (kind v) "int")
  end.

Fixpoint Unmarshal_elems {A} (f : Value → result A) (l : list Value)
  : result (list A) :=
  match l with
  | [] => Ok []
  | v :: rest =>
      x ← f v; xs ← Unmarshal_elems f rest; Ok (x :: xs)
  end.

(** A Go [[]string] while the decoder writes into it: the nil slice, or
    its elements followed by the spare elements of its backing array,
    which a shorter array decoded earlier into the same variable has left
    there.  (Memory past the spare elements is fresh, hence zero.) *)
Inductive Strings : Type :=
| nilStrings
| mkStrings (elems spare : list string).

(** What the program sees of the slice: [None] for nil. *)
Definition visible (s : Strings) : option (list string) :=
  match s with nilStrings => None | mkStrings elems _ => Some elems end.

Definition backing (s : Strings) : list string :=
  match s with nilStrings => [] | mkStrings elems spare => elems ++ spare end.

(** The elements of an array decoded one by one over what the backing
    array holds at their index, so that a [null] element keeps what is
    there (the empty string in fresh memory). *)
Fixpoint Unmarshal_over (l : list Value) (base : list string)
  : result (list string) :=
  match l with
  | [] => Ok []
  | v :: rest =>
      x ← Unmarshal_string v (hd "" base);
      xs ← Unmarshal_over rest (tl base);
      Ok (x :: xs)
  end.

(** [json.Unmarshal] into a Go [[]string] holding [cur]: [null] sets it to
    nil, the empty array to a fresh empty slice, and a longer array is
    decoded element by element over the slice it finds, which is then cut
    to the length of the array. *)
Definition Unmarshal_strings (v : Value) (cur : Strings) : result Strings :=
  match v with
  | Null => Ok nilStrings
  | Arr [] => Ok (mkStrings [] [])
  | Arr l =>
      l' ← Unmarshal_over l (backing cur);
      Ok (mkStrings l' (drop (length l) (backing cur)))
  | _ => Err (UnmarshalTypeError (kind v) "[]string")
  end.

(** Decoding the members of an object into a struct, in document order:
    a later member overwrites what an earlier one stored. *)
Fixpoint Unmarshal_members {A} (member : A → string → Value → result A)
    (kvs : list (string * Value)) (acc : A) : result A :=
  match kvs with
  | [] => Ok acc
  | (k, v) :: rest => acc' ← member acc k v; Unmarshal_members member rest acc'
  end.

(** [json.Unmarshal] into a struct holding [cur]. *)
Definition Unmarshal_struct {A} (gotype : string)
    (member : A → string → Value → result A) (v : Value) (cur : A) : result A :=
  match v with
  | Null => Ok cur
  | Obj kvs => Unmarshal_members member kvs cur
  | _ => Err (UnmarshalTypeError (kind v) gotype)
  end.

(** [json.Unmarshal] of the bytes of a [RawMessage] into
    [[]json.RawMessage]: no bytes is a syntax error, [null] the nil slice,
    and each element of an array is kept undecoded. *)
Definition Unmarshal_raws (data : RawMessage) : result (list Value) :=
  match data with
  | None => Err (SyntaxError "unexpected end of JSON input")
  | Some Null => Ok []
  | Some (Arr l) => Ok l
  | Some v => Err (UnmarshalTypeError (kind v) "[]json.RawMessage")
  end.

(** The first member of an object with exactly this key. *)
Definition field (name : string) (v : Value) : option Value :=
  match v with
  | Obj kvs => snd <$> List.find (λ kv, String.eqb (fst kv) name) kvs
  | _ => None
  end.

(** No member of the object selects the struct member called [name]. *)
Definition omits (name : string) (kvs : list (string * Value)) : bool :=
  forallb (λ kv, negb (matches name (fst kv))) kvs.

(** [omitempty] members. *)
Definition omitempty_string (name s : string) : list (string * Value) :=
  if String.eqb s "" then [] else [(name, Str s)].
Definition omitempty_int (name : string) (z : Z) : list (string * Value) :=
  if z =? 0 then [] else [(name, Int z)].
Definition omitempty_strings (name : string) (l : option (list string))
  : list (string * Value) :=
  match l with
  | None | Some [] => []
  | Some l => [(name, Arr (Str <$> l))]
  end.

(** The JSON values a rule list accepts as an entry, and as the list. *)
Definition is_rule (v : Value) : bool :=
  match v with Null | Str _ | Obj _ => true | _ => false end.

Definition is_rule_list (v : Value) : bool :=
  match v with Null | Arr _ => true | _ => false end.

End Json.

(** ** pkg/config: the policy *)
Module Config.
Import Json.

(** Default execution timeout in seconds. *)
Definition DefaultExecutionTimeout : Z := 30.

(** Default max output size in bytes (50KB). *)
Definition DefaultMaxOutputSize : Z := 50 * 1024.

(** A command that is explicitly denied.  (Members [Command] and
    [Message] of the Go struct.) *)
Record DenyCommand : Type := {
  DenyCommand_Command : string;
  DenyCommand_Message : string;
}.

(** A command that is explicitly allowed, with optional subcommand
    specifications; [None] is the nil slice. *)
Record AllowCommand : Type := {
  Command : string;
  SubCommands : option (list string);
  DenySubCommands : option (list string);
}.

(** The configuration for shell command permissions.
    [AllowedDirectories] is [None] for the nil slice, which [encoding/json]
    writes as [null]; the two rule lists of a decoded configuration are
    made by [make] and never nil. *)
Record ShellCommandConfig : Type := {
  AllowedDirectories : option (list string);
  AllowCommands : list AllowCommand;
  DenyCommands : list DenyCommand;
  DefaultErrorMessage : string;
  BlockLogPath : string;
  MaxExecutionTime : Z;
  MaxOutputSize : Z;
}.

(** The anonymous struct [raw] of [UnmarshalJSON]. *)
Record rawConfig : Type := {
  raw_AllowedDirectories : Strings;
  raw_AllowCommands : RawMessage;
  raw_DenyCommands : RawMessage;
  raw_DefaultErrorMessage : string;
  raw_BlockLogPath : string;
  raw_MaxExecutionTime : Z;
  raw_MaxOutputSize : Z;
}.

Definition rawConfig_zero : rawConfig :=
  {| raw_AllowedDirectories := nilStrings; raw_AllowCommands := None;
     raw_DenyCommands := None; raw_DefaultErrorMessage := "";
     raw_BlockLogPath := ""; raw_MaxExecutionTime := 0;
     raw_MaxOutputSize := 0 |}.

(** One member of the document stored into [raw], by its json tag. *)
Definition rawConfig_member (r : rawConfig) (k : string) (v : Value)
  : result rawConfig :=
  let '{| raw_AllowedDirectories := ad; raw_AllowCommands := ac;
          raw_DenyCommands := dc; raw_DefaultErrorMessage := dm;
          raw_BlockLogPath := bl; raw_MaxExecutionTime := mt;
          raw_MaxOutputSize := mo |} := r in
  if matches "allowedDirectories" k then
    ad' ← Unmarshal_strings v ad; Ok (Build_rawConfig ad' ac dc dm bl mt mo)
  else if matches "allowCommands" k then
    Ok (Build_rawConfig ad (Some v) dc dm bl mt mo)
  else if matches "denyCommands" k then
    Ok (Build_rawConfig ad ac (Some v) dm bl mt mo)
  else if matches "defaultErrorMessage" k then
    dm' ← Unmarshal_string v dm; Ok (Build_rawConfig ad ac dc dm' bl mt mo)
  else if matches "blockLogPath" k then
    bl' ← Unmarshal_string v bl; Ok (Build_rawConfig ad ac dc dm bl' mt mo)
  else if matches "maxExecutionTime" k then
    mt' ← Unmarshal_int v mt; Ok (Build_rawConfig ad ac dc dm bl mt' mo)
  else if matches "maxOutputSize" k then
    mo' ← Unmarshal_int v mo; Ok (Build_rawConfig ad ac dc dm bl mt mo')
  else Ok r.

Definition DenyCommand_member (d : DenyCommand) (k : string) (v : Value)
  : result DenyCommand :=
  if matches "command" k then
    c ← Unmarshal_string v (DenyCommand_Command d);
    Ok (Build_DenyCommand c (DenyCommand_Message d))
  else if matches "message" k then
    m ← Unmarshal_string v (DenyCommand_Message d);
    Ok (Build_DenyCommand (DenyCommand_Command d) m)
  else Ok d.

(** The variable [cmdObj] of [UnmarshalAllowCommands] while an object is
    decoded into it: an [AllowCommand] whose two slices still have their
    backing arrays. *)
Record cmdObj : Type := {
  cmdObj_Command : string;
  cmdObj_SubCommands : Strings;
  cmdObj_DenySubCommands : Strings;
}.

Definition cmdObj_zero : cmdObj :=
  {| cmdObj_Command := ""; cmdObj_SubCommands := nilStrings;
     cmdObj_DenySubCommands := nilStrings |}.

Definition AllowCommand_of (a : cmdObj) : AllowCommand :=
  {| Command := cmdObj_Command a;
     SubCommands := visible (cmdObj_SubCommands a);
     DenySubCommands := visible (cmdObj_DenySubCommands a) |}.

Definition AllowCommand_member (a : cmdObj) (k : string) (v : Value)
  : result cmdObj :=
  if matches "command" k then
    c ← Unmarshal_string v (cmdObj_Command a);
    Ok (Build_cmdObj c (cmdObj_SubCommands a) (cmdObj_DenySubCommands a))
  else if matches "subCommands" k then
    l ← Unmarshal_strings v (cmdObj_SubCommands a);
    Ok (Build_cmdObj (cmdObj_Command a) l (cmdObj_DenySubCommands a))
  else if matches "denySubCommands" k then
    l ← Unmarshal_strings v (cmdObj_DenySubCommands a);
    Ok (Build_cmdObj (cmdObj_Command a) (cmdObj_SubCommands a) l)
  else Ok a.

(** The body of the loop of [UnmarshalDenyCommands]: a string first, an
    object otherwise. *)
Definition UnmarshalDenyCommand (raw : Value) : result DenyCommand :=
  match Unmarshal_string raw "" with
  | Ok cmdStr => Ok {| DenyCommand_Command := cmdStr; DenyCommand_Message := "" |}
  | Err _ =>
      Unmarshal_struct "config.DenyCommand" DenyCommand_member raw
        {| DenyCommand_Command := ""; DenyCommand_Message := "" |}
  end.

(** [UnmarshalDenyCommands]: the raw JSON for deny commands, which can be
    either strings or objects. *)
Definition UnmarshalDenyCommands (data : RawMessage) : result (list DenyCommand) :=
  rawCommands ← Unmarshal_raws data;
  Unmarshal_elems UnmarshalDenyCommand rawCommands.

(** The body of the loop of [UnmarshalAllowCommands]. *)
Definition UnmarshalAllowCommand (raw : Value) : result AllowCommand :=
  match Unmarshal_string raw "" with
  | Ok cmdStr =>
      Ok {| Command := cmdStr; SubCommands := None; DenySubCommands := None |}
  | Err _ =>
      AllowCommand_of <$>
        Unmarshal_struct "config.AllowCommand" AllowCommand_member raw cmdObj_zero
  end.

(** [UnmarshalAllowCommands]: the raw JSON for allow commands, which can
    be either strings or objects. *)
Definition UnmarshalAllowCommands (data : RawMessage) : result (list AllowCommand) :=
  rawCommands ← Unmarshal_raws data;
  Unmarshal_elems UnmarshalAllowCommand rawCommands.

Definition wrap {A} (msg : string) (r : result A) : result A :=
  match r with Ok a => Ok a | Err e => Err (wrapError msg (Some e)) end.

(** [ShellCommandConfig.UnmarshalJSON], on the parsed document. *)
Definition UnmarshalJSON (data : Value) : result ShellCommandConfig :=
  raw ← Unmarshal_struct "struct" rawConfig_member data rawConfig_zero;
  allowCommands ←
    wrap "error unmarshaling allow commands"
      (UnmarshalAllowCommands (raw_AllowCommands raw));
  denyCommands ←
    wrap "error unmarshaling deny commands"
      (UnmarshalDenyCommands (raw_DenyCommands raw));
  Ok {| AllowedDirectories := visible (raw_AllowedDirectories raw);
        AllowCommands := allowCommands;
        DenyCommands := denyCommands;
        DefaultErrorMessage :=
          if negb (String.eqb (raw_DefaultErrorMessage raw) "")
          then raw_DefaultErrorMessage raw
          else "Command not allowed by security policy";
        BlockLogPath := raw_BlockLogPath raw;
        MaxExecutionTime :=
          if 0 <? raw_MaxExecutionTime raw then raw_MaxExecutionTime raw
          else DefaultExecutionTimeout;
        MaxOutputSize :=
          if 0 <? raw_MaxOutputSize raw then raw_MaxOutputSize raw
          else DefaultMaxOutputSize |}.

(** [NewDefaultConfig]. *)
Definition NewDefaultConfig : ShellCommandConfig :=
  {| AllowedDirectories := Some ["/home"; "/tmp"];
     AllowCommands :=
       [ Build_AllowCommand "ls" None None;
         Build_AllowCommand "cat" None None;
         Build_AllowCommand "echo" None None ];
     DenyCommands := [ Build_DenyCommand "rm" "Remove command is not allowed" ];
     DefaultErrorMessage := "Command not allowed by security policy";
     BlockLogPath := "";
     MaxExecutionTime := DefaultExecutionTimeout;
     MaxOutputSize := DefaultMaxOutputSize |}.

(** [LoadConfigFromFile], given what [os.ReadFile] and the JSON parser
    make of the path: a read error, a syntax error, or a document. *)
Definition LoadConfigFromFile (file : result (result Value))
  : result ShellCommandConfig :=
  match file with
  | Err e => Err (wrapError "failed to read config file" (Some e))
  | Ok doc =>
      wrap "failed to decode config file" (data ← doc; UnmarshalJSON data)
  end.

(** [IsCommandAllowed]: the loop over [c.AllowCommands]. *)
Fixpoint IsCommandAllowed_range (l : list AllowCommand) (cmd : string) : bool :=
  match l with
  | [] => false
  | allowed :: rest =>
      if String.eqb (Command allowed) cmd then true
      else IsCommandAllowed_range rest cmd
  end.

Definition IsCommandAllowed (c : ShellCommandConfig) (cmd : string) : bool :=
  IsCommandAllowed_range (AllowCommands c) cmd.

Definition set_AllowCommands (l : list AllowCommand) (c : ShellCommandConfig)
  : ShellCommandConfig :=
  {| AllowedDirectories := AllowedDirectories c; AllowCommands := l;
     DenyCommands := DenyCommands c;
     DefaultErrorMessage := DefaultErrorMessage c;
     BlockLogPath := BlockLogPath c; MaxExecutionTime := MaxExecutionTime c;
     MaxOutputSize := MaxOutputSize c |}.

(** [AddAllowedCommand]. *)
Definition AddAllowedCommand (c : ShellCommandConfig) (cmd : string)
  : ShellCommandConfig :=
  if negb (IsCommandAllowed c cmd)
  then set_AllowCommands (AllowCommands c ++ [Build_AllowCommand cmd None None]) c
  else c.

(** [json.Marshal] of the structs, by their json tags (the package
    defines no [MarshalJSON]). *)
Definition Marshal_AllowCommand (a : AllowCommand) : Value :=
  Obj ([("command", Str (Command a))]
       ++ omitempty_strings "subCommands" (SubCommands a)
       ++ omitempty_strings "denySubCommands" (DenySubCommands a)).

Definition Marshal_DenyCommand (d : DenyCommand) : Value :=
  Obj ([("command", Str (DenyCommand_Command d))]
       ++ omitempty_string "message" (DenyCommand_Message d)).

Definition Marshal (c : ShellCommandConfig) : Value :=
  Obj ([("allowedDirectories",
          match AllowedDirectories c with
          | None => Null
          | Some l => Arr (Str <$> l)
          end);
        ("allowCommands", Arr (Marshal_AllowCommand <$> AllowCommands c));
        ("denyCommands", Arr (Marshal_DenyCommand <$> DenyCommands c));
        ("defaultErrorMessage", Str (DefaultErrorMessage c))]
       ++ omitempty_string "blockLogPath" (BlockLogPath c)
       ++ omitempty_int "maxExecutionTime" (MaxExecutionTime c)
       ++ omitempty_int "maxOutputSize" (MaxOutputSize c)).

(** What [omitempty] makes of a policy that is written and read again:
    a slice of subcommands that is empty but not nil comes back nil. *)
Definition omit_empty (l : option (list string)) : option (list string) :=
  match l with Some [] => None | _ => l end.

Definition reread_rule (a : AllowCommand) : AllowCommand :=
  {| Command := Command a;
     SubCommands := omit_empty (SubCommands a);
     DenySubCommands := omit_empty (DenySubCommands a) |}.

Definition reread (c : ShellCommandConfig) : ShellCommandConfig :=
  set_AllowCommands (reread_rule <$> AllowCommands c) c.




End Config.

(** ** The validator's rule *)
Module Validator.
Import Config.


Definition member (x : string) (l : list string) : bool :=
  existsb (String.eqb x) l.



(** Modelled from the spec: the top-level allow check of the direct path
    is the method [IsCommandAllowed] of [config.ShellConfig], a type whose
    declaration and methods are not among the sources.  Section 4.1:
    [IsAllowed(command)] is the rule of section 4.2 at the top level,
    ignoring subcommand detail; section 3: a command appearing in both
    [allowCommands] and [denyCommands] is always denied. *)
Definition IsAllowed (p : ShellCommandConfig) (command : string) : bool :=
  negb (existsb (λ d, String.eqb (DenyCommand_Command d) command) (DenyCommands p))
  && existsb (λ a, String.eqb (Command a) command) (AllowCommands p).

(** Modelled from the spec: no source checks a directory against
    [allowedDirectories].  Section 3: the entries are absolute path
    prefixes, and an empty set means unrestricted. *)
Definition underAllowedDirectories (p : ShellCommandConfig) (dir : string) : bool :=
  match AllowedDirectories p with
  | None | Some [] => true
  | Some dirs => existsb (λ d, String.prefix d dir) dirs
  end.

End Validator.

(** ** pkg/runner: the secure runner *)
Module Runner.
Import Config.

(** [context.Context], as far as the runner uses it: the deadline, an
    instant in nanoseconds.  (Cancellation by the caller and the [cancel]
    functions deferred to the end of a call play no part below.) *)
Record Ctx : Type := { Deadline : option Z }.

(** [exec.Cmd]: [Env] is [None] for the nil slice, [Dir] is empty when
    unset.  [Stdout] and [Stderr] are always the two sinks of the runner. *)
Record Cmd : Type := {
  Path : string;
  Args : list string;
  Env : option (list string);
  Dir : string;
  Cmd_ctx : Ctx;
}.

(** What a call does that its caller or the host can observe, in order:
    the two kinds of log record, the call of the validator, the creation
    of the interpreter with its environment, and [command.Run()] on an
    [exec.Cmd], which launches the process. *)
Inductive Event : Type :=
| LogCommandAttempt (cmd : string) (args : list string) (allowed : bool)
| LogErrorf (format : string) (err : error)
| Validate (script : string)
| NewInterp (env : list string)
| Start (c : Cmd).

(** The state a call runs in: the clock, the bytes received so far by
    the writers [r.stdout] and [r.stderr], and the events so far. *)
Record World : Type := {
  now : Z;
  stdout : string;
  stderr : string;
  trace : list Event;
}.

(** What one process does between launch and exit. *)
Record Exit : Type := {
  written_stdout : string;
  written_stderr : string;
  elapsed : N;
  exit_err : option error;
}.

(** A run of the interpreter seen from the host: it works on its own for
    a while (builtins, expansions), writing to its standard streams, and
    hands each program to launch to the exec handler, going on from the
    handler's answer.  A run is a finite tree, so it ends.  The handler
    calls of one run are taken one after the other: the two sides of a
    pipeline, which the interpreter runs at the same time, are not
    interleaved here, so what is proved of a script below is which events
    a call has and what each launch carries, not how the events of
    concurrent launches are ordered among themselves. *)
Inductive Prog : Type :=
| Return (err : option error)
| Builtin (dt : N) (out err : string) (k : Prog)
| Exec (args : list string) (k : option error → Prog).

(** The collaborators outside the repository: the parser and interpreter
    of [mvdan.cc/sh/v3], and [os/exec]. *)
Class Host : Type := {
  File : Type;
  Parse : string → result File;
  Parse_elapsed : string → N;
  interp_New : list string → option error;
  interp_Run : list string → Ctx → File → Prog;
  Cmd_Run : Cmd → World → Exit;
}.

(** [validator.CommandValidator], a collaborator of the runner: what
    [ValidateScript] returns for a script, and how long it takes. *)
Record CommandValidator : Type := {
  ValidateScript : string → bool * option error;
  ValidateScript_elapsed : string → N;
}.

(** Modelled from the spec: the declaration of [config.ShellConfig], the
    type of [SafeRunner.config], is not among the sources.  The runner
    reads from it [MaxExecutionTime], the map [RestrictedEnv] and the
    string [WorkingDir], and calls its method [IsCommandAllowed].  The
    policy is that of section 3 of the spec, [ShellCommandConfig]; the
    method is not among the sources either and is taken as it comes,
    [ShellConfig_IsCommandAllowed], any function of the command name. *)
Record ShellConfig : Type := {
  Policy : ShellCommandConfig;
  RestrictedEnv : gmap string string;
  WorkingDir : string;
  ShellConfig_IsCommandAllowed : string → bool;
}.

(** [SafeRunner].  The logger and the two writers live in [World]. *)
Record SafeRunner : Type := {
  config : ShellConfig;
  validator : CommandValidator;
}.

(** Calls are state transformers of the world. *)
Definition M (A : Type) : Type := World → A * World.

Global Instance M_ret : MRet M := λ A a w, (a, w).
Global Instance M_bind : MBind M := λ A B f m w, f (m w).1 (m w).2.

Definition emit (e : Event) : M unit := λ w,
  (tt, {| now := now w; stdout := stdout w; stderr := stderr w;
          trace := trace w ++ [e] |}).

(** Time passes. *)
Definition sleep (dt : N) : M unit := λ w,
  (tt, {| now := now w + Z.of_N dt; stdout := stdout w; stderr := stderr w;
          trace := trace w |}).

(** Time passes and bytes reach the two writers. *)
Definition advance (dt : N) (out err : string) : M unit := λ w,
  (tt, {| now := now w + Z.of_N dt; stdout := stdout w ++ out;
          stderr := stderr w ++ err; trace := trace w |}).

(** Arithmetic of [int64], the type of [time.Duration]. *)
Definition wrap64 (z : Z) : Z := (z + 2 ^ 63) mod 2 ^ 64 - 2 ^ 63.

Definition Second : Z := 1000000000.

(** [time.Duration(n) * time.Second]. *)
Definition seconds (n : Z) : Z := wrap64 (n * Second).

(** [context.WithDeadline]: a parent whose deadline is already earlier
    keeps it. *)
Definition WithDeadline (parent : Ctx) (d : Z) : Ctx :=
  match Deadline parent with
  | Some cur => if cur <? d then parent else {| Deadline := Some d |}
  | None => {| Deadline := Some d |}
  end.

(** [context.WithTimeout(parent, timeout)] is
    [WithDeadline(parent, time.Now().Add(timeout))]. *)
Definition WithTimeout (parent : Ctx) (timeout : Z) : M Ctx := λ w,
  (WithDeadline parent (now w + timeout), w).

(** The loop [for k, v := range r.config.RestrictedEnv] appending
    [k+"="+v].  Go fixes no order for it; the list is given in the order
    of [map_to_list]. *)
Definition envPairs (env : gmap string string) : list string :=
  (λ kv, kv.1 ++ "=" ++ kv.2) <$> map_to_list env.

(** [exec.CommandContext(ctx, name, arg...)]. *)
Definition CommandContext (ctx : Ctx) (name : string) (arg : list string) : Cmd :=
  {| Path := name; Args := name :: arg; Env := None; Dir := ""; Cmd_ctx := ctx |}.

Definition set_Env (env : list string) (c : Cmd) : Cmd :=
  {| Path := Path c; Args := Args c; Env := Some env; Dir := Dir c;
     Cmd_ctx := Cmd_ctx c |}.

Definition set_Dir (dir : string) (c : Cmd) : Cmd :=
  {| Path := Path c; Args := Args c; Env := Env c; Dir := dir;
     Cmd_ctx := Cmd_ctx c |}.

(** [os/exec], on the member [Env] of a command: "If Env is nil, the new
    process uses the current process's environment."  (What [os/exec]
    does to either environment on its own, such as adding [PWD], keeping
    one entry for each key, or supplying [SYSTEMROOT] on Windows, is not
    part of this.) *)
Definition uses_parent_environment (c : Cmd) : bool :=
  match Env c with None => true | Some _ => false end.

(** [command.Run()]: the process is launched, runs and is waited for. *)
Definition command_Run `{Host} (c : Cmd) : M (option error) := λ w,
  let x := Cmd_Run c w in
  (exit_err x,
   {| now := now w + Z.of_N (elapsed x);
      stdout := stdout w ++ written_stdout x;
      stderr := stderr w ++ written_stderr x;
      trace := trace w ++ [Start c] |}).

(** [SafeRunner.Run]: runs a shell command with args. *)
Definition Run `{Host} (r : SafeRunner) (ctx : Ctx) (args : list string)
  : M (option error) :=
  match args with
  | [] => mret (Some (errorString "no command provided"))
  | cmd :: rest =>
      if negb (ShellConfig_IsCommandAllowed (config r) cmd) then
        emit (LogCommandAttempt cmd rest false);;
        mret (Some (notPermitted cmd))
      else
        emit (LogCommandAttempt cmd rest true);;
        ctx ← (if 0 <? MaxExecutionTime (Policy (config r))
               then WithTimeout ctx (seconds (MaxExecutionTime (Policy (config r))))
               else mret ctx);
        let command := CommandContext ctx cmd rest in
        let command :=
          if (0 <? size (RestrictedEnv (config r)))%nat
          then set_Env (envPairs (RestrictedEnv (config r))) command
          else command in
        let command :=
          if negb (String.eqb (WorkingDir (config r)) "")
          then set_Dir (WorkingDir (config r)) command
          else command in
        err ← command_Run command;
        match err with
        | Some e =>
            emit (LogErrorf "Command execution error: %v" e);;
            mret (Some (wrapError "command execution error" (Some e)))
        | None => mret None
        end
  end.

(** [runner.Run(ctx, prog)] of the interpreter with [handler] as its exec
    handler. *)
Fixpoint interp (handler : Ctx → list string → M (option error)) (ctx : Ctx)
    (p : Prog) : M (option error) :=
  match p with
  | Return err => mret err
  | Builtin dt out err k => advance dt out err;; interp handler ctx k
  | Exec args k => err ← handler ctx args; interp handler ctx (k err)
  end.

(** The closure [execHandler] of [RunScript]. *)
Definition execHandler `{Host} (r : SafeRunner) (ctx : Ctx) (args : list string)
  : M (option error) :=
  Run r ctx args.

(** [SafeRunner.RunScript]: runs a shell script. *)
Definition RunScript `{Host} (r : SafeRunner) (ctx : Ctx) (script : string)
  : M (option error) :=
  emit (Validate script);;
  sleep (ValidateScript_elapsed (validator r) script);;
  let '(valid, err) := ValidateScript (validator r) script in
  if negb valid || bool_decide (err ≠ None) then
    mret (Some (wrapError "script validation failed" err))
  else
    sleep (Parse_elapsed script);;
    match Parse script with
    | Err e =>
        emit (LogErrorf "Parse error: %v" e);;
        mret (Some (wrapError "parse error" (Some e)))
    | Ok prog =>
        ctx ← (if 0 <? MaxExecutionTime (Policy (config r))
               then WithTimeout ctx (seconds (MaxExecutionTime (Policy (config r))))
               else mret ctx);
        let envPairs := envPairs (RestrictedEnv (config r)) in
        emit (NewInterp envPairs);;
        match interp_New envPairs with
        | Some e =>
            emit (LogErrorf "Interpreter creation error: %v" e);;
            mret (Some (wrapError "interpreter creation error" (Some e)))
        | None =>
            err ← interp (execHandler r) ctx (interp_Run envPairs ctx prog);
            match err with
            | Some e =>
                emit (LogErrorf "Script execution error: %v" e);;
                mret (Some (wrapError "script execution error" (Some e)))
            | None => mret None
            end
        end
    end.

(** The events a call adds to the trace of the world it starts in. *)
Definition events_of {A} (m : M A) (w : World) : list Event :=
  drop (length (trace w)) (trace (m w).2).

Definition is_Start (e : Event) : bool :=
  match e with Start _ => true | _ => false end.

Definition is_LogCommandAttempt (e : Event) : bool :=
  match e with LogCommandAttempt _ _ _ => true | _ => false end.

(** The context [Run] launches a command under, when called with [ctx] at
    time [t]. *)
Definition Run_ctx (r : SafeRunner) (ctx : Ctx) (t : Z) : Ctx :=
  if 0 <? MaxExecutionTime (Policy (config r))
  then WithDeadline ctx (t + seconds (MaxExecutionTime (Policy (config r))))
  else ctx.

(** The [exec.Cmd] that [Run] launches for an allowed [cmd]. *)
Definition Run_command (r : SafeRunner) (ctx : Ctx) (t : Z) (cmd : string)
    (rest : list string) : Cmd :=
  {| Path := cmd; Args := cmd :: rest;
     Env := if (0 <? size (RestrictedEnv (config r)))%nat
            then Some (envPairs (RestrictedEnv (config r))) else None;
     Dir := WorkingDir (config r);
     Cmd_ctx := Run_ctx r ctx t |}.

(** World [w'] comes after [w], with [evs] the events in between. *)
Record follows (w w' : World) (evs : list Event) : Prop := {
  follows_trace : trace w' = (trace w ++ evs)%list;
  follows_now : now w ≤ now w';
}.

(** [c] is a command that [Run], called with [ctx] no earlier than [t0],
    launches for some allowed command name. *)
Definition launched (r : SafeRunner) (ctx : Ctx) (t0 : Z) (c : Cmd) : Prop :=
  ∃ t cmd rest,
    t0 ≤ t ∧ ShellConfig_IsCommandAllowed (config r) cmd = true ∧
    c = Run_command r ctx t cmd rest.

(** The events of one call of [Run]. *)
Definition Run_events `{Host} (r : SafeRunner) (ctx : Ctx) (args : list string)
    (w : World) : list Event :=
  match args with
  | [] => []
  | cmd :: rest =>
      if ShellConfig_IsCommandAllowed (config r) cmd then
        let c := Run_command r ctx (now w) cmd rest in
        LogCommandAttempt cmd rest true :: Start c ::
        match exit_err (Cmd_Run c (emit (LogCommandAttempt cmd rest true) w).2) with
        | Some e => [LogErrorf "Command execution error: %v" e]
        | None => []
        end
      else [LogCommandAttempt cmd rest false]
  end.

(** What a call of [Run] with [ctx], no earlier than [t0], may add to the
    trace: log records and launches of allowed commands. *)
Definition Run_event (r : SafeRunner) (ctx : Ctx) (t0 : Z) (e : Event) : Prop :=
  match e with
  | Start c => launched r ctx t0 c
  | LogCommandAttempt _ _ _ | LogErrorf _ _ => True
  | Validate _ | NewInterp _ => False
  end.

(** What [RunScript] may add after the validation: the creation of the
    interpreter with the restricted pairs, and the events of [Run]. *)
Definition RunScript_event (r : SafeRunner) (ctx : Ctx) (t0 : Z) (e : Event) : Prop :=
  match e with
  | NewInterp env => env = envPairs (RestrictedEnv (config r))
  | Validate _ => False
  | _ => Run_event r ctx t0 e
  end.

(** The same runner with [AllowedDirectories], or with [MaxOutputSize],
    changed. *)
Definition with_AllowedDirectories (dirs : option (list string)) (r : SafeRunner)
  : SafeRunner :=
  let p := Policy (config r) in
  {| config :=
       {| Policy :=
            {| AllowedDirectories := dirs; AllowCommands := AllowCommands p;
               DenyCommands := DenyCommands p;
               DefaultErrorMessage := DefaultErrorMessage p;
               BlockLogPath := BlockLogPath p;
               MaxExecutionTime := MaxExecutionTime p;
               MaxOutputSize := MaxOutputSize p |};
          RestrictedEnv := RestrictedEnv (config r);
          WorkingDir := WorkingDir (config r);
          ShellConfig_IsCommandAllowed := ShellConfig_IsCommandAllowed (config r) |};
     validator := validator r |}.

Definition with_MaxOutputSize (n : Z) (r : SafeRunner) : SafeRunner :=
  let p := Policy (config r) in
  {| config :=
       {| Policy :=
            {| AllowedDirectories := AllowedDirectories p;
               AllowCommands := AllowCommands p;
               DenyCommands := DenyCommands p;
               DefaultErrorMessage := DefaultErrorMessage p;
               BlockLogPath := BlockLogPath p;
               MaxExecutionTime := MaxExecutionTime p;
               MaxOutputSize := n |};
          RestrictedEnv := RestrictedEnv (config r);
          WorkingDir := WorkingDir (config r);
          ShellConfig_IsCommandAllowed := ShellConfig_IsCommandAllowed (config r) |};
     validator := validator r |}.

(** The instant at which [RunScript], called in [w], derives its
    timeout: after the validation and the parsing of the script. *)
Definition RunScript_instant `{Host} (r : SafeRunner) (script : string)
    (w : World) : Z :=
  now w + Z.of_N (ValidateScript_elapsed (validator r) script)
  + Z.of_N (Parse_elapsed script).

(** The world in which [RunScript], called in [w], starts the run of the
    interpreter. *)
Definition RunScript_world `{Host} (r : SafeRunner) (script : string)
    (w : World) : World :=
  (emit (NewInterp (envPairs (RestrictedEnv (config r))))
     (sleep (Parse_elapsed script)
        (sleep (ValidateScript_elapsed (validator r) script)
           (emit (Validate script) w).2).2).2).2.

(** [SafeRunner.RunScriptFile], given what [io.ReadAll] made of the
    reader. *)
Definition RunScriptFile `{Host} (r : SafeRunner) (ctx : Ctx)
    (read : result string) : M (option error) :=
  match read with
  | Err e =>
      emit (LogErrorf "Script reading error: %v" e);;
      mret (Some (wrapError "script reading error" (Some e)))
  | Ok script => RunScript r ctx script
  end.

End Runner.

(** ** Concrete documents, policies and hosts used in the examples *)
Module Samples.
Import Json Config Validator Runner.

(** A policy file with bare-string rules and explicit limits. *)
Definition bareDoc : Value :=
  Obj [("allowedDirectories", Arr [Str "/home"; Str "/tmp"]);
       ("allowCommands", Arr [Str "ls"]);
       ("denyCommands", Arr [Str "rm"]);
       ("defaultErrorMessage", Str "denied");
       ("maxExecutionTime", Int 5);
       ("maxOutputSize", Int 10)].

(** A policy file with a rule whose [subCommands] is an explicit empty
    list, and a limit below zero. *)
Definition emptySubsDoc : Value :=
  Obj [("allowCommands",
        Arr [Str "ls"; Obj [("command", Str "git"); ("subCommands", Arr [])]]);
       ("denyCommands", Arr [Str "rm"]);
       ("maxExecutionTime", Int (-5))].

(** A policy file without its [allowCommands] member. *)
Definition noAllowDoc : Value :=
  Obj [("allowedDirectories", Arr [Str "/tmp"]);
       ("denyCommands", Arr [Str "rm"])].

(** The words of a script separated by [;]. *)
Fixpoint words (acc : string) (s : string) : list string :=
  match s with
  | EmptyString => [acc]
  | String ";"%char rest => acc :: words "" rest
  | String c rest => words (acc ++ String c "") rest
  end.

(** A small host: a script is a [;]-separated sequence of command words,
    run one after the other whatever the earlier ones return; parsing
    takes three nanoseconds; every process writes ten bytes to its
    standard output and exits with success after one nanosecond. *)
Definition toyHost : Host :=
  {| File := list string;
     Parse script := Ok (words "" script);
     Parse_elapsed _ := 3%N;
     interp_New _ := None;
     interp_Run _ _ prog :=
       foldr (λ cmd k, Exec [cmd] (λ _, k)) (Return None) prog;
     Cmd_Run _ _ :=
       {| written_stdout := "0123456789"; written_stderr := "";
          elapsed := 1; exit_err := None |} |}.

(** Validators that take two nanoseconds. *)
Definition acceptAll : CommandValidator :=
  {| ValidateScript _ := (true, None); ValidateScript_elapsed _ := 2%N |}.
Definition rejectAll : CommandValidator :=
  {| ValidateScript _ := (false, None); ValidateScript_elapsed _ := 2%N |}.

Definition policy (allow : list string) (deny : list string)
    (maxExecutionTime maxOutputSize : Z) : ShellCommandConfig :=
  {| AllowedDirectories := Some ["/home"; "/tmp"];
     AllowCommands := (λ c, Build_AllowCommand c None None) <$> allow;
     DenyCommands := (λ c, Build_DenyCommand c "") <$> deny;
     DefaultErrorMessage := "Command not allowed by security policy";
     BlockLogPath := "";
     MaxExecutionTime := maxExecutionTime;
     MaxOutputSize := maxOutputSize |}.

(** A configuration whose allow check is the one of the spec. *)
Definition shellConfig (p : ShellCommandConfig) (env : gmap string string)
    (dir : string) : ShellConfig :=
  {| Policy := p; RestrictedEnv := env; WorkingDir := dir;
     ShellConfig_IsCommandAllowed := IsAllowed p |}.

(** The default policy, no restricted environment, working directory
    [/etc]. *)
Definition etcRunner : SafeRunner :=
  {| config := shellConfig NewDefaultConfig ∅ "/etc"; validator := acceptAll |}.

(** [rm] both allowed and denied. *)
Definition rmRunner : SafeRunner :=
  {| config := shellConfig (policy ["ls"; "rm"] ["rm"] 30 51200)
                 {[ "LANG" := "C" ]} "/tmp";
     validator := acceptAll |}.

(** An output cap of four bytes. *)
Definition capRunner : SafeRunner :=
  {| config := shellConfig (policy ["ls"] ["rm"] 30 4) {[ "LANG" := "C" ]} "/tmp";
     validator := acceptAll |}.

(** No execution time limit. *)
Definition unlimitedRunner : SafeRunner :=
  {| config := shellConfig (policy ["ls"] ["rm"] 0 51200) {[ "LANG" := "C" ]} "/tmp";
     validator := acceptAll |}.

(** A runner whose validator rejects every script. *)
Definition rejectingRunner : SafeRunner :=
  {| config := config rmRunner; validator := rejectAll |}.

Definition background : Ctx := {| Deadline := None |}.

Definition start : World :=
  {| now := 0; stdout := ""; stderr := ""; trace := [] |}.

End Samples.

(** * Properties *)

Import Json Config Validator Runner.

(** ** Decoding and re-serializing the policy *)

(** The member names a key can select are told apart by its folded form. *)
Lemma matches_fold name k : matches name k = true ↔ foldName k = foldName name.
Proof. unfold matches. apply String.eqb_eq. Qed.


Ltac eval_folds :=
  repeat match goal with
  | |- context [String.eqb (foldName ?a) (foldName ?b)] =>
      let r := eval vm_compute in (String.eqb (foldName a) (foldName b)) in
      change (String.eqb (foldName a) (foldName b)) with r
  end.

Ltac select_member Hk :=
  apply matches_fold in Hk; unfold rawConfig_member, matches; rewrite Hk;
  eval_folds; cbv iota.

Section ConfigProps.

Lemma bind_Ok {A B} (m : result A) (f : A → result B) (b : B) :
  (m ≫= f) = Ok b ↔ ∃ a, m = Ok a ∧ f a = Ok b.
Proof.
  destruct m as [a|e]; simpl; split.
  - eauto.
  - by intros (? & [= ->] & ?).
  - done.
  - by intros (? & ? & ?).
Qed.




Lemma Unmarshal_elems_fmap {A B} (f : Value → result B) (g : A → Value)
    (h : A → B) (l : list A) :
  (∀ a, f (g a) = Ok (h a)) → Unmarshal_elems f (g <$> l) = Ok (h <$> l).
Proof.
  intros Hfg. induction l as [|a l IH]; csimpl; [done|].
  by rewrite Hfg; csimpl; rewrite IH.
Qed.




Ltac member_cases k :=
  repeat match goal with
  | |- context [if matches ?n k then _ else _] =>
      destruct (matches n k) eqn:?;
      [let H := fresh in
       intros H;
       first [apply bind_Ok in H as (? & ? & [= <-]) | injection H as <-];
       simpl in * | ]
  end;
  try (let H := fresh in intros H; injection H as <-; simpl in * ).


Lemma rawConfig_member_allow r k v r' :
  rawConfig_member r k v = Ok r' → matches "allowCommands" k = false →
  raw_AllowCommands r' = raw_AllowCommands r.
Proof.
  destruct r as [ad ac dc dm bl mt mo]. unfold rawConfig_member. simpl.
  member_cases k; congruence.
Qed.

Lemma rawConfig_member_deny r k v r' :
  rawConfig_member r k v = Ok r' → matches "denyCommands" k = false →
  raw_DenyCommands r' = raw_DenyCommands r.
Proof.
  destruct r as [ad ac dc dm bl mt mo]. unfold rawConfig_member. simpl.
  member_cases k; congruence.
Qed.

(** What holds of [raw] before the members are read holds after, when
    every member that is read keeps it. *)
Lemma Unmarshal_members_ind {A} (member : A → string → Value → result A)
    (P : A → Prop) kvs :
  (∀ a k v a', (k, v) ∈ kvs → member a k v = Ok a' → P a → P a') →
  ∀ acc acc', Unmarshal_members member kvs acc = Ok acc' → P acc → P acc'.
Proof.
  induction kvs as [|[k v] kvs IH]; intros Hstep acc acc'; simpl.
  - by intros [= <-].
  - intros (a1 & H1 & H2)%bind_Ok Hacc.
    apply (IH (λ a k' v' a' Hin, Hstep a k' v' a' (list_elem_of_further _ _ _ Hin)) a1 acc' H2).
    eapply Hstep; [left | done..].
Qed.

Lemma omits_elem name kvs k v :
  omits name kvs = true → (k, v) ∈ kvs → matches name k = false.
Proof.
  unfold omits. rewrite forallb_forall. intros H Hin.
  apply list_elem_of_In, H, negb_true_iff in Hin. done.
Qed.

Lemma raw_omits_allow kvs raw :
  omits "allowCommands" kvs = true →
  Unmarshal_members rawConfig_member kvs rawConfig_zero = Ok raw →
  raw_AllowCommands raw = None.
Proof.
  intros Hom Hraw.
  apply (Unmarshal_members_ind rawConfig_member (λ r, raw_AllowCommands r = None) kvs)
    with (acc := rawConfig_zero); [|done..].
  intros a k v a' Hin Hm Ha. rewrite <- Ha.
  eapply rawConfig_member_allow; eauto using omits_elem.
Qed.

Lemma raw_omits_deny kvs raw :
  omits "denyCommands" kvs = true →
  Unmarshal_members rawConfig_member kvs rawConfig_zero = Ok raw →
  raw_DenyCommands raw = None.
Proof.
  intros Hom Hraw.
  apply (Unmarshal_members_ind rawConfig_member (λ r, raw_DenyCommands r = None) kvs)
    with (acc := rawConfig_zero); [|done..].
  intros a k v a' Hin Hm Ha. rewrite <- Ha.
  eapply rawConfig_member_deny; eauto using omits_elem.
Qed.

(** C10.  Decoding a [ShellCommandConfig] from a JSON object none of
    whose members is read as [allowCommands], or none of whose members is
    read as [denyCommands], returns an error, and so does
    [LoadConfigFromFile] on such a file: it wraps that error.  (A member
    is read as [allowCommands] when its key is that name up to the
    decoder's case folding.) *)
Theorem UnmarshalJSON_requires_rule_lists (kvs : list (string * Value)) :
  omits "allowCommands" kvs = true ∨ omits "denyCommands" kvs = true →
  ∃ e, UnmarshalJSON (Obj kvs) = Err e ∧
       LoadConfigFromFile (Ok (Ok (Obj kvs)))
       = Err (wrapError "failed to decode config file" (Some e)).
Proof.
  intros Hom.
  assert (∃ e, UnmarshalJSON (Obj kvs) = Err e) as [e He].
  { unfold UnmarshalJSON, Unmarshal_struct.
    destruct (Unmarshal_members rawConfig_member kvs rawConfig_zero)
      as [raw|e] eqn:Hraw; csimpl; [|by eauto].
    destruct Hom as [Hom|Hom].
    - rewrite (raw_omits_allow _ _ Hom Hraw). csimpl. eauto.
    - rewrite (raw_omits_deny _ _ Hom Hraw).
      destruct (UnmarshalAllowCommands (raw_AllowCommands raw)); csimpl; eauto. }
  exists e. split; [done|]. unfold LoadConfigFromFile. csimpl. by rewrite He.
Qed.

Lemma UnmarshalJSON_requires_rule_lists_witness :
  ∃ e, UnmarshalJSON Samples.noAllowDoc = Err e ∧
       LoadConfigFromFile (Ok (Ok Samples.noAllowDoc))
       = Err (wrapError "failed to decode config file" (Some e)).
Proof.
  apply (UnmarshalJSON_requires_rule_lists
           [("allowedDirectories", Arr [Str "/tmp"]); ("denyCommands", Arr [Str "rm"])]).
  left. vm_compute. reflexivity.
Defined.



Lemma rawConfig_member_time r k v r' :
  rawConfig_member r k v = Ok r' → matches "maxExecutionTime" k = false →
  raw_MaxExecutionTime r' = raw_MaxExecutionTime r.
Proof.
  destruct r as [ad ac dc dm bl mt mo]. unfold rawConfig_member. simpl.
  member_cases k; congruence.
Qed.

Lemma rawConfig_member_size r k v r' :
  rawConfig_member r k v = Ok r' → matches "maxOutputSize" k = false →
  raw_MaxOutputSize r' = raw_MaxOutputSize r.
Proof.
  destruct r as [ad ac dc dm bl mt mo]. unfold rawConfig_member. simpl.
  member_cases k; congruence.
Qed.



Lemma Unmarshal_members_app {A} (member : A → string → Value → result A)
    (l1 l2 : list (string * Value)) (acc : A) :
  Unmarshal_members member (l1 ++ l2)%list acc
  = Unmarshal_members member l1 acc ≫= Unmarshal_members member l2.
Proof.
  revert acc. induction l1 as [|[k v] l1 IH]; intros acc; simpl; [done|].
  destruct (member acc k v); csimpl; [apply IH | done].
Qed.

Lemma rawConfig_member_time_set r k z r' :
  matches "maxExecutionTime" k = true →
  rawConfig_member r k (Int z) = Ok r' → raw_MaxExecutionTime r' = z.
Proof.
  intros Hk. destruct r as [ad ac dc dm bl mt mo]. select_member Hk.
  unfold Unmarshal_int.
  destruct ((minInt <=? z) && (z <=? maxInt)); csimpl; [|done]. by intros [= <-].
Qed.

Lemma rawConfig_member_size_set r k z r' :
  matches "maxOutputSize" k = true →
  rawConfig_member r k (Int z) = Ok r' → raw_MaxOutputSize r' = z.
Proof.
  intros Hk. destruct r as [ad ac dc dm bl mt mo]. select_member Hk.
  unfold Unmarshal_int.
  destruct ((minInt <=? z) && (z <=? maxInt)); csimpl; [|done]. by intros [= <-].
Qed.













(** The empty [subCommands] of [emptySubsDoc] does not come back. *)
Example Marshal_drops_empty_subCommands :
  ∃ c, UnmarshalJSON Samples.emptySubsDoc = Ok c ∧
       SubCommands <$> AllowCommands c = [None; Some []] ∧
       SubCommands <$> AllowCommands (reread c) = [None; None].
Proof. eexists. split; [reflexivity|]. by split. Qed.


(** An absent (or empty) [defaultErrorMessage] is written back as the
    default message. *)
Example Marshal_default_message :
  (c ← UnmarshalJSON (Obj [("allowCommands", Arr []); ("denyCommands", Arr [])]);
   Ok (field "defaultErrorMessage" (Marshal c)))
  = Ok (Some (Str "Command not allowed by security policy")).
Proof. reflexivity. Qed.

End ConfigProps.

(** ** The runner *)
Section RunnerProps.
Context `{host : Host}.
Local Open Scope list_scope.

Implicit Types (r : SafeRunner) (ctx : Ctx) (w : World) (c : Cmd).

Ltac unfold_M := unfold mbind, M_bind, mret, M_ret; simpl.

Lemma Run_nil r ctx w :
  Run r ctx [] w = (Some (errorString "no command provided"), w).
Proof. reflexivity. Qed.

Lemma Run_denied r ctx cmd rest w :
  ShellConfig_IsCommandAllowed (config r) cmd = false →
  Run r ctx (cmd :: rest) w
  = (Some (notPermitted cmd), (emit (LogCommandAttempt cmd rest false) w).2).
Proof. intros Hc. unfold Run. rewrite Hc. reflexivity. Qed.

(** The command [Run] builds step by step is [Run_command]. *)
Lemma Run_allowed r ctx cmd rest w :
  ShellConfig_IsCommandAllowed (config r) cmd = true →
  Run r ctx (cmd :: rest) w
  = let c := Run_command r ctx (now w) cmd rest in
    let w1 := (emit (LogCommandAttempt cmd rest true) w).2 in
    let w2 := (command_Run c w1).2 in
    match exit_err (Cmd_Run c w1) with
    | Some e =>
        (Some (wrapError "command execution error" (Some e)),
         (emit (LogErrorf "Command execution error: %v" e) w2).2)
    | None => (None, w2)
    end.
Proof.
  intros Hc. unfold Run, Run_command, Run_ctx. rewrite Hc. unfold_M.
  unfold set_Dir, set_Env, CommandContext.
  destruct (String.eqb_spec (WorkingDir (config r)) "") as [->|_];
    destruct (0 <? MaxExecutionTime _), (0 <? size _)%nat; simpl;
    by destruct (exit_err _).
Qed.

Lemma follows_refl w : follows w w [].
Proof. split; [by rewrite app_nil_r | lia]. Qed.

Lemma follows_trans w w1 w2 evs1 evs2 :
  follows w w1 evs1 → follows w1 w2 evs2 → follows w w2 (evs1 ++ evs2).
Proof.
  intros [Ht1 Hn1] [Ht2 Hn2]. split; [|lia].
  by rewrite Ht2, Ht1, app_assoc.
Qed.

Lemma follows_emit e w : follows w (emit e w).2 [e].
Proof. split; simpl; [done | lia]. Qed.

Lemma follows_advance dt out err w : follows w (advance dt out err w).2 [].
Proof. split; simpl; [by rewrite app_nil_r | lia]. Qed.

Lemma follows_command_Run c w : follows w (command_Run c w).2 [Start c].
Proof. split; simpl; [done | lia]. Qed.

Lemma follows_events_of {A} (m : M A) w evs :
  follows w (m w).2 evs → events_of m w = evs.
Proof. intros [Ht _]. unfold events_of. by rewrite Ht, drop_app_length. Qed.

Lemma launched_mono r ctx t0 t1 c :
  t0 ≤ t1 → launched r ctx t1 c → launched r ctx t0 c.
Proof. intros Ht (t & cmd & rest & ? & ? & ?). exists t, cmd, rest. split; [lia|done]. Qed.

Lemma Run_follows r ctx args w :
  follows w (Run r ctx args w).2 (Run_events r ctx args w).
Proof.
  destruct args as [|cmd rest]; [apply follows_refl|]. unfold Run_events.
  destruct (ShellConfig_IsCommandAllowed (config r) cmd) eqn:Hc.
  - rewrite (Run_allowed _ _ _ _ _ Hc). cbv zeta.
    set (c := Run_command r ctx (now w) cmd rest).
    set (w1 := (emit (LogCommandAttempt cmd rest true) w).2).
    pose proof (follows_trans _ _ _ _ _ (follows_emit (LogCommandAttempt cmd rest true) w)
                  (follows_command_Run c w1)) as Hf.
    destruct (exit_err (Cmd_Run c w1)) as [e|]; [|exact Hf].
    apply (follows_trans _ _ _ _ _ Hf (follows_emit _ _)).
  - rewrite (Run_denied _ _ _ _ _ Hc). apply follows_emit.
Qed.

Lemma Run_events_Forall r ctx args w :
  Forall (Run_event r ctx (now w)) (Run_events r ctx args w).
Proof.
  destruct args as [|cmd rest]; simpl; [constructor|].
  destruct (ShellConfig_IsCommandAllowed (config r) cmd) eqn:Hc;
    [|by repeat constructor].
  assert (launched r ctx (now w) (Run_command r ctx (now w) cmd rest)).
  { exists (now w), cmd, rest. split; [lia|done]. }
  destruct (exit_err _); by repeat constructor.
Qed.

(** The script path: a run of the interpreter whose exec handler is
    [execHandler] adds events one call of [Run] after the other. *)
Lemma interp_follows r ctx (p : Prog) :
  ∀ w, ∃ evs,
    follows w (interp (execHandler r) ctx p w).2 evs ∧
    Forall (Run_event r ctx (now w)) evs.
Proof.
  induction p as [err | dt out err k IH | args k IH]; intros w; simpl.
  - exists []. split; [apply follows_refl | constructor].
  - unfold_M. destruct (IH (advance dt out err w).2) as (evs & Hf & Hall).
    exists evs. split.
    + apply (follows_trans _ _ _ [] evs (follows_advance dt out err w) Hf).
    + eapply Forall_impl; [exact Hall|]. intros [] ?; try done.
      eapply launched_mono; [|done]. simpl. lia.
  - unfold_M. unfold execHandler at 1 3.
    pose proof (Run_follows r ctx args w) as Hrun.
    destruct (IH (Run r ctx args w).1 (Run r ctx args w).2) as (evs & Hf & Hall).
    exists (Run_events r ctx args w ++ evs). split.
    + apply (follows_trans _ _ _ _ _ Hrun Hf).
    + apply Forall_app. split; [apply Run_events_Forall|].
      eapply Forall_impl; [exact Hall|]. intros [] ?; try done.
      eapply launched_mono; [|done]. apply (follows_now _ _ _ Hrun).
Qed.

Lemma Run_ctx_idem r ctx t0 t :
  t0 ≤ t → Run_ctx r (Run_ctx r ctx t0) t = Run_ctx r ctx t0.
Proof.
  intros Ht. unfold Run_ctx.
  destruct (0 <? MaxExecutionTime (Policy (config r))); [|done].
  set (d := seconds _). unfold WithDeadline.
  destruct ctx as [[cur|]]; simpl.
  - destruct (Z.ltb_spec cur (t0 + d)); simpl.
    + destruct (Z.ltb_spec cur (t + d)); [done | lia].
    + destruct (Z.ltb_spec (t0 + d) (t + d)); [done|]. do 2 f_equal. lia.
  - destruct (Z.ltb_spec (t0 + d) (t + d)); [done|]. do 2 f_equal. lia.
Qed.

(** A command launched through the hook of a script started at [t0]
    carries the context of the script. *)
Lemma launched_script r ctx t0 c :
  launched r (Run_ctx r ctx t0) t0 c →
  ShellConfig_IsCommandAllowed (config r) (Path c) = true ∧
  Cmd_ctx c = Run_ctx r ctx t0 ∧
  Env c = (if (0 <? size (RestrictedEnv (config r)))%nat
           then Some (envPairs (RestrictedEnv (config r))) else None) ∧
  Dir c = WorkingDir (config r).
Proof.
  intros (t & cmd & rest & Ht & Hc & ->). simpl.
  by rewrite Run_ctx_idem.
Qed.

Lemma follows_sleep dt w : follows w (sleep dt w).2 [].
Proof. split; simpl; [by rewrite app_nil_r | lia]. Qed.

(** [RunScript], stage by stage. *)
Lemma RunScript_stages r ctx script w :
  RunScript r ctx script w
  = let v := ValidateScript (validator r) script in
    let w1 := (sleep (ValidateScript_elapsed (validator r) script)
                 (emit (Validate script) w).2).2 in
    if negb v.1 || bool_decide (v.2 ≠ None)
    then (Some (wrapError "script validation failed" v.2), w1)
    else
      match Parse script with
      | Err e =>
          (Some (wrapError "parse error" (Some e)),
           (emit (LogErrorf "Parse error: %v" e) (sleep (Parse_elapsed script) w1).2).2)
      | Ok prog =>
          let sctx := Run_ctx r ctx (RunScript_instant r script w) in
          let env := envPairs (RestrictedEnv (config r)) in
          let w2 := RunScript_world r script w in
          match interp_New env with
          | Some e =>
              (Some (wrapError "interpreter creation error" (Some e)),
               (emit (LogErrorf "Interpreter creation error: %v" e) w2).2)
          | None =>
              let res := interp (execHandler r) sctx (interp_Run env sctx prog) w2 in
              match res.1 with
              | Some e =>
                  (Some (wrapError "script execution error" (Some e)),
                   (emit (LogErrorf "Script execution error: %v" e) res.2).2)
              | None => (None, res.2)
              end
          end
      end.
Proof.
  unfold RunScript, Run_ctx, RunScript_world, RunScript_instant. unfold_M.
  destruct (ValidateScript (validator r) script) as [valid err]. simpl.
  destruct (negb valid || _); [done|]. simpl. destruct (Parse script); [|done].
  destruct (0 <? MaxExecutionTime _); simpl; destruct (interp_New _); try done;
    by destruct (interp _ _ _ _).1.
Qed.

Lemma RunScript_invalid r ctx script w :
  (ValidateScript (validator r) script).1 = false ∨
  (ValidateScript (validator r) script).2 ≠ None →
  RunScript r ctx script w
  = (Some (wrapError "script validation failed"
             (ValidateScript (validator r) script).2),
     (sleep (ValidateScript_elapsed (validator r) script)
        (emit (Validate script) w).2).2).
Proof.
  rewrite RunScript_stages. cbv zeta.
  destruct (ValidateScript (validator r) script) as [valid err]. simpl.
  intros [->|Herr]; simpl; [done|].
  rewrite bool_decide_true by done. by rewrite orb_true_r.
Qed.

Lemma interp_follows_events r ctx (p : Prog) w :
  follows w (interp (execHandler r) ctx p w).2
    (events_of (interp (execHandler r) ctx p) w).
Proof.
  destruct (interp_follows r ctx p w) as (evs & Hf & _).
  by rewrite (follows_events_of _ _ _ Hf).
Qed.

Lemma RunScript_world_follows r script w :
  follows w (RunScript_world r script w)
    [Validate script; NewInterp (envPairs (RestrictedEnv (config r)))].
Proof.
  unfold RunScript_world.
  pose proof (follows_emit (Validate script) w) as H1.
  pose proof (follows_trans _ _ _ _ _ H1
                (follows_sleep (ValidateScript_elapsed (validator r) script) _)) as H2.
  pose proof (follows_trans _ _ _ _ _ H2 (follows_sleep (Parse_elapsed script) _)) as H3.
  apply (follows_trans _ _ _ _ _ H3 (follows_emit _ _)).
Qed.

(** The events of [RunScript], stage by stage. *)
Lemma RunScript_events r ctx script w :
  events_of (RunScript r ctx script) w
  = Validate script ::
    let v := ValidateScript (validator r) script in
    if negb v.1 || bool_decide (v.2 ≠ None) then []
    else
      match Parse script with
      | Err e => [LogErrorf "Parse error: %v" e]
      | Ok prog =>
          let sctx := Run_ctx r ctx (RunScript_instant r script w) in
          let env := envPairs (RestrictedEnv (config r)) in
          let w2 := RunScript_world r script w in
          NewInterp env ::
          match interp_New env with
          | Some e => [LogErrorf "Interpreter creation error: %v" e]
          | None =>
              let m := interp (execHandler r) sctx (interp_Run env sctx prog) in
              events_of m w2 ++
              match (m w2).1 with
              | Some e => [LogErrorf "Script execution error: %v" e]
              | None => []
              end
          end
      end.
Proof.
  apply follows_events_of. rewrite RunScript_stages. cbv zeta.
  pose proof (follows_trans _ _ _ _ _ (follows_emit (Validate script) w)
                (follows_sleep (ValidateScript_elapsed (validator r) script) _))
    as Hv.
  set (w1 := (sleep _ (emit (Validate script) w).2).2) in *.
  destruct (negb _ || _); [done|].
  destruct (Parse script) as [prog|e].
  2:{ apply (follows_trans _ _ _ _ _
               (follows_trans _ _ _ _ _ Hv (follows_sleep (Parse_elapsed script) _))
               (follows_emit _ _)). }
  set (env := envPairs (RestrictedEnv (config r))).
  pose proof (RunScript_world_follows r script w) as Hn.
  set (w2 := RunScript_world r script w) in *.
  destruct (interp_New env) as [e|].
  { apply (follows_trans _ _ _ _ _ Hn (follows_emit _ _)). }
  set (sctx := Run_ctx r ctx (RunScript_instant r script w)).
  pose proof (follows_trans _ _ _ _ _ Hn
                (interp_follows_events r sctx (interp_Run env sctx prog) w2)) as Hi.
  destruct (interp (execHandler r) sctx (interp_Run env sctx prog) w2).1 as [e|].
  - apply (follows_trans _ _ _ _ _ Hi (follows_emit _ _)).
  - by rewrite app_nil_r.
Qed.

Lemma RunScript_follows r ctx script w :
  let t1 := RunScript_instant r script w in
  ∃ evs,
    events_of (RunScript r ctx script) w = Validate script :: evs ∧
    Forall (RunScript_event r (Run_ctx r ctx t1) t1) evs.
Proof.
  cbv zeta.
  { rewrite RunScript_events. cbv zeta. eexists. split; [done|].
    destruct (negb _ || _); [constructor|].
    destruct (Parse script) as [prog|e]; [|by repeat constructor].
    constructor; [done|].
    destruct (interp_New _) as [e|]; [by repeat constructor|].
    apply Forall_app. split.
    - destruct (interp_follows r (Run_ctx r ctx (RunScript_instant r script w))
                  (interp_Run (envPairs (RestrictedEnv (config r)))
                     (Run_ctx r ctx (RunScript_instant r script w)) prog)
                  (RunScript_world r script w)) as (evs & Hf & Hall).
      rewrite (follows_events_of _ _ _ Hf).
      eapply Forall_impl; [exact Hall|]. by intros [].
    - destruct (interp _ _ _ _).1; by repeat constructor. }
Qed.

Lemma events_of_Run r ctx args w :
  events_of (Run r ctx args) w = Run_events r ctx args w.
Proof. apply follows_events_of, Run_follows. Qed.

Lemma Run_refuses r ctx cmd rest w :
  (Run r ctx (cmd :: rest) w).1 = Some (notPermitted cmd) ↔
  ShellConfig_IsCommandAllowed (config r) cmd = false.
Proof.
  destruct (ShellConfig_IsCommandAllowed (config r) cmd) eqn:Hc.
  - rewrite (Run_allowed _ _ _ _ _ Hc). cbv zeta. by destruct (exit_err _).
  - by rewrite (Run_denied _ _ _ _ _ Hc).
Qed.

Lemma Run_Start r ctx args w c :
  Start c ∈ events_of (Run r ctx args) w →
  ∃ cmd rest, args = cmd :: rest ∧
    ShellConfig_IsCommandAllowed (config r) cmd = true ∧
    c = Run_command r ctx (now w) cmd rest.
Proof.
  rewrite events_of_Run. destruct args as [|cmd rest]; simpl.
  { by intros ?%elem_of_nil. }
  destruct (ShellConfig_IsCommandAllowed (config r) cmd) eqn:Hc.
  - intros Hin. exists cmd, rest. do 2 (split; [done|]).
    apply elem_of_cons in Hin as [?|Hin]; [done|].
    apply elem_of_cons in Hin as [[= ->]|Hin]; [done|].
    destruct (exit_err _); [|by apply elem_of_nil in Hin].
    by apply list_elem_of_singleton in Hin.
  - by intros ?%list_elem_of_singleton.
Qed.

Lemma RunScript_Start r ctx script w c :
  Start c ∈ events_of (RunScript r ctx script) w →
  launched r (Run_ctx r ctx (RunScript_instant r script w))
    (RunScript_instant r script w) c.
Proof.
  destruct (RunScript_follows r ctx script w) as (evs & Hf & Hall).
  rewrite Hf.
  intros [?|Hin]%elem_of_cons; [done|].
  rewrite Forall_forall in Hall. apply (Hall _ Hin).
Qed.

Lemma RunScript_NewInterp r ctx script w env :
  NewInterp env ∈ events_of (RunScript r ctx script) w →
  env = envPairs (RestrictedEnv (config r)).
Proof.
  destruct (RunScript_follows r ctx script w) as (evs & Hf & Hall).
  rewrite Hf.
  intros [?|Hin]%elem_of_cons; [done|].
  rewrite Forall_forall in Hall. apply (Hall _ Hin).
Qed.

(** The interpreter does the same with handlers that do the same. *)
Lemma interp_ext (h1 h2 : Ctx → list string → M (option error)) ctx (p : Prog) :
  (∀ ctx args w, h1 ctx args w = h2 ctx args w) →
  ∀ w, interp h1 ctx p w = interp h2 ctx p w.
Proof.
  intros Hh. induction p as [err | dt out err k IH | args k IH]; intros w; simpl.
  - done.
  - unfold_M. apply IH.
  - unfold_M. rewrite Hh. apply IH.
Qed.

(** C9.  For the empty command vector [Run] returns an error whatever
    the policy is and leaves the world as it was: nothing is logged and
    no process is launched.  For a non-empty vector the events of the call
    start with one record of the attempt, carrying the verdict of the
    allow check, and no other attempt is recorded; a denied call adds
    nothing more and returns the denial, an allowed one goes on with the
    launch of the process. *)
Theorem Run_logs_one_attempt r ctx w :
  (∀ r', Run r' ctx [] w = (Some (errorString "no command provided"), w)) ∧
  (∀ cmd rest, ∃ evs,
     events_of (Run r ctx (cmd :: rest)) w
     = LogCommandAttempt cmd rest (ShellConfig_IsCommandAllowed (config r) cmd) :: evs ∧
     Forall (λ e, is_LogCommandAttempt e = false) evs ∧
     if ShellConfig_IsCommandAllowed (config r) cmd
     then ∃ c tail, evs = Start c :: tail ∧ Forall (λ e, is_Start e = false) tail
     else evs = [] ∧ (Run r ctx (cmd :: rest) w).1 = Some (notPermitted cmd)).
Proof.
  split; [done|]. intros cmd rest. rewrite events_of_Run. unfold Run_events.
  destruct (ShellConfig_IsCommandAllowed (config r) cmd) eqn:Hc.
  - eexists. split; [done|]. split.
    + destruct (exit_err _); by repeat constructor.
    + do 2 eexists. split; [done|]. destruct (exit_err _); by repeat constructor.
  - exists []. split; [done|]. split; [constructor|]. split; [done|].
    by apply Run_refuses.
Qed.

(** C5.  The events of [RunScript] start with the call of the validator,
    so every launch of the call comes after it; and when the validator
    answers invalid, or returns an error, [RunScript] returns a failure
    and that call is its only event: no interpreter is created and no
    process launched. *)
Theorem RunScript_validates_first r ctx script w :
  (∃ evs, events_of (RunScript r ctx script) w = Validate script :: evs) ∧
  ((ValidateScript (validator r) script).1 = false ∨
   (ValidateScript (validator r) script).2 ≠ None →
   (RunScript r ctx script w).1
   = Some (wrapError "script validation failed"
             (ValidateScript (validator r) script).2) ∧
   events_of (RunScript r ctx script) w = [Validate script]).
Proof.
  split.
  - destruct (RunScript_follows r ctx script w) as (evs & Hf & _). by exists evs.
  - intros Hinv. rewrite (RunScript_invalid _ _ _ _ Hinv). split; [done|].
    apply follows_events_of. rewrite (RunScript_invalid _ _ _ _ Hinv).
    apply (follows_trans _ _ _ _ _ (follows_emit (Validate script) w)
             (follows_sleep _ _)).
Qed.


Lemma IsCommandAllowed_elem (p : ShellCommandConfig) (cmd : string) :
  IsCommandAllowed p cmd = true ↔ cmd ∈ Command <$> AllowCommands p.
Proof.
  unfold IsCommandAllowed. induction (AllowCommands p) as [|a l IH]; simpl.
  - split; [done | by intros ?%elem_of_nil].
  - rewrite elem_of_cons. destruct (String.eqb_spec (Command a) cmd) as [|Hne].
    + split; [by left | done].
    + rewrite IH. split; [by right | by intros [?|?]].
Qed.




(** The restricted pairs are those of the map, one [k=v] for each entry. *)
Lemma elem_of_envPairs (env : gmap string string) (s : string) :
  s ∈ envPairs env ↔ ∃ k v, env !! k = Some v ∧ s = (k ++ "=" ++ v)%string.
Proof.
  unfold envPairs. rewrite list_elem_of_fmap. split.
  - intros ([k v] & -> & Hkv%elem_of_map_to_list). eauto.
  - intros (k & v & Hkv & ->). exists (k, v). by rewrite elem_of_map_to_list.
Qed.

(** C2, amended.  With a non-empty restricted set, every command that
    [Run] launches, directly or through the hook of [RunScript], has its
    [Env] set to exactly the pairs [k=v] of the set: [Run] hands the
    process no variable of its own environment.  With an empty set [Run]
    leaves [Env] nil, and the process then uses the environment of the
    caller.  The interpreter of [RunScript] is always created with
    exactly the restricted pairs, the empty list included. *)
Theorem restricted_environment r ctx w :
  let pairs := envPairs (RestrictedEnv (config r)) in
  let given (c : Cmd) :=
    Env c = (if (0 <? size (RestrictedEnv (config r)))%nat
             then Some pairs else None) ∧
    uses_parent_environment c = (size (RestrictedEnv (config r)) =? 0)%nat in
  (∀ args c, Start c ∈ events_of (Run r ctx args) w → given c) ∧
  (∀ script c, Start c ∈ events_of (RunScript r ctx script) w → given c) ∧
  (∀ script env, NewInterp env ∈ events_of (RunScript r ctx script) w → env = pairs) ∧
  (∀ s, s ∈ pairs ↔
        ∃ k v, RestrictedEnv (config r) !! k = Some v ∧ s = (k ++ "=" ++ v)%string).
Proof.
  cbv zeta.
  assert (∀ c, Env c = (if (0 <? size (RestrictedEnv (config r)))%nat
                        then Some (envPairs (RestrictedEnv (config r))) else None) →
               uses_parent_environment c
               = (size (RestrictedEnv (config r)) =? 0)%nat) as Huses.
  { intros c Hc. unfold uses_parent_environment. rewrite Hc.
    by destruct (size (RestrictedEnv (config r))). }
  split; [|split; [|split]].
  - intros args c (cmd & rest & _ & _ & ->)%Run_Start. split; [done|].
    by apply Huses.
  - intros script c (_ & _ & HEnv & _)%RunScript_Start%launched_script.
    split; [done|]. by apply Huses.
  - intros script env. apply RunScript_NewInterp.
  - apply elem_of_envPairs.
Qed.

(** [Run] and [RunScript] read neither [AllowedDirectories] nor
    [MaxOutputSize]. *)
Lemma Run_with_AllowedDirectories dirs r ctx args w :
  Run (with_AllowedDirectories dirs r) ctx args w = Run r ctx args w.
Proof. reflexivity. Qed.

Lemma Run_with_MaxOutputSize n r ctx args w :
  Run (with_MaxOutputSize n r) ctx args w = Run r ctx args w.
Proof. reflexivity. Qed.

Lemma RunScript_with_AllowedDirectories dirs r ctx script w :
  RunScript (with_AllowedDirectories dirs r) ctx script w = RunScript r ctx script w.
Proof.
  unfold RunScript. unfold_M.
  destruct (ValidateScript _ script) as [valid err].
  destruct (negb valid || _); [done|]. destruct (Parse script); [|done].
  destruct (0 <? _); simpl; destruct (interp_New _); try done;
    by rewrite (interp_ext (execHandler (with_AllowedDirectories dirs r))
                  (execHandler r)).
Qed.

Lemma RunScript_with_MaxOutputSize n r ctx script w :
  RunScript (with_MaxOutputSize n r) ctx script w = RunScript r ctx script w.
Proof.
  unfold RunScript. unfold_M.
  destruct (ValidateScript _ script) as [valid err].
  destruct (negb valid || _); [done|]. destruct (Parse script); [|done].
  destruct (0 <? _); simpl; destruct (interp_New _); try done;
    by rewrite (interp_ext (execHandler (with_MaxOutputSize n r)) (execHandler r)).
Qed.

(** C3, amended.  [Run] never consults [allowedDirectories]: whatever
    that set is, a call does the same; every process it launches has the
    configured working directory as its [Dir] (unset when that is empty),
    and the call is refused exactly when the command is not allowed. *)
Theorem working_directory_unchecked r ctx w :
  (∀ dirs args, Run (with_AllowedDirectories dirs r) ctx args w = Run r ctx args w) ∧
  (∀ dirs script,
     RunScript (with_AllowedDirectories dirs r) ctx script w = RunScript r ctx script w) ∧
  (∀ args c, Start c ∈ events_of (Run r ctx args) w → Dir c = WorkingDir (config r)) ∧
  (∀ cmd rest,
     (Run r ctx (cmd :: rest) w).1 = Some (notPermitted cmd) ↔
     ShellConfig_IsCommandAllowed (config r) cmd = false).
Proof.
  split; [|split; [|split]].
  - intros. apply Run_with_AllowedDirectories.
  - intros. apply RunScript_with_AllowedDirectories.
  - by intros args c (cmd & rest & _ & _ & ->)%Run_Start.
  - intros. apply Run_refuses.
Qed.

(** C4, amended.  The writers of the runner receive every byte a
    launched process writes, in full, whatever [maxOutputSize] is: the
    runner never reads that limit, discards nothing and marks nothing as
    truncated (a call returns an error value only). *)
Theorem output_uncapped r ctx w :
  (∀ cmd rest,
     ShellConfig_IsCommandAllowed (config r) cmd = true →
     let x := Cmd_Run (Run_command r ctx (now w) cmd rest)
                (emit (LogCommandAttempt cmd rest true) w).2 in
     stdout (Run r ctx (cmd :: rest) w).2 = (stdout w ++ written_stdout x)%string ∧
     stderr (Run r ctx (cmd :: rest) w).2 = (stderr w ++ written_stderr x)%string) ∧
  (∀ n args, Run (with_MaxOutputSize n r) ctx args w = Run r ctx args w) ∧
  (∀ n script,
     RunScript (with_MaxOutputSize n r) ctx script w = RunScript r ctx script w).
Proof.
  split; [|split].
  - intros cmd rest Hc. rewrite (Run_allowed _ _ _ _ _ Hc). cbv zeta.
    by destruct (exit_err _).
  - intros. apply Run_with_MaxOutputSize.
  - intros. apply RunScript_with_MaxOutputSize.
Qed.

(** C7, amended.  [RunScript] derives its timeout at one instant, after
    the validation and the parsing of the script, and every process
    launched through the exec hook carries the context set up then: the
    timeout that [Run] derives again for each sub-command, from that
    context and at a later instant, never changes it.  With a positive
    [maxExecutionTime] the one deadline of that context is that instant
    plus the limit, or the deadline of the caller when that is earlier;
    with a limit that is not positive no deadline is derived and the
    context is the caller's. *)
Theorem script_deadline r ctx script w :
  let T := MaxExecutionTime (Policy (config r)) in
  let t1 := RunScript_instant r script w in
  let sctx := Run_ctx r ctx t1 in
  now w + Z.of_N (ValidateScript_elapsed (validator r) script)
  + Z.of_N (Parse_elapsed script) = t1 ∧
  (∀ c, Start c ∈ events_of (RunScript r ctx script) w → Cmd_ctx c = sctx) ∧
  (∀ t, t1 ≤ t → Run_ctx r sctx t = sctx) ∧
  (0 < T →
   Deadline sctx
   = Some match Deadline ctx with
          | Some cur => Z.min cur (t1 + seconds T)
          | None => t1 + seconds T
          end) ∧
  (T ≤ 0 → sctx = ctx).
Proof.
  cbv zeta. split; [done|]. split; [|split; [|split]].
  - by intros c (_ & Hctx & _)%RunScript_Start%launched_script.
  - intros t Ht. by apply Run_ctx_idem.
  - intros HT. unfold Run_ctx, WithDeadline.
    destruct (Z.ltb_spec 0 (MaxExecutionTime (Policy (config r)))); [|lia].
    destruct ctx as [[cur|]]; simpl; [|done].
    destruct (Z.ltb_spec cur (RunScript_instant r script w
                              + seconds (MaxExecutionTime (Policy (config r)))));
      simpl; f_equal; lia.
  - intros HT. unfold Run_ctx.
    by destruct (Z.ltb_spec 0 (MaxExecutionTime (Policy (config r)))); [lia|].
Qed.

End RunnerProps.

(** Witnesses on the sample host. *)
Lemma RunScript_validates_first_witness :
  (Samples.rejectingRunner.(validator).(ValidateScript) "ls;rm").1 = false ∧
  events_of (RunScript (H := Samples.toyHost) Samples.rejectingRunner
               Samples.background "ls;rm") Samples.start
  = [Validate "ls;rm"].
Proof.
  split; [reflexivity|].
  apply (RunScript_validates_first (host := Samples.toyHost)
           Samples.rejectingRunner Samples.background "ls;rm" Samples.start).
  left. reflexivity.
Defined.


(** ** Counterexamples to the claims as stated, on the sample host *)
Section Counterexamples.
Import Samples.
Local Open Scope list_scope.

(** C2, as stated, fails: with an empty restricted set the command that
    [Run] launches for [ls] has a nil [Env], so the process uses the
    environment of the caller. *)
Lemma Run_inherits_ambient_environment :
  RestrictedEnv (config etcRunner) = ∅ ∧
  ∃ c, events_of (Run (H := toyHost) etcRunner background ["ls"]) start
       = [LogCommandAttempt "ls" [] true; Start c] ∧
       Env c = None ∧
       uses_parent_environment c = true.
Proof.
  split; [reflexivity|]. eexists. split; [reflexivity|]. split; reflexivity.
Qed.

(** C3, as stated, fails: under the default policy, whose allowed
    directories are [/home] and [/tmp], [Run] with the working directory
    [/etc] is not denied but launches [ls] in [/etc]. *)
Lemma Run_outside_allowed_directories :
  underAllowedDirectories (Policy (config etcRunner)) (WorkingDir (config etcRunner))
  = false ∧
  Run (H := toyHost) etcRunner background ["ls"] start
  = (None,
     {| now := 1; stdout := "0123456789"; stderr := "";
        trace := [ LogCommandAttempt "ls" [] true;
                   Start {| Path := "ls"; Args := ["ls"]; Env := None;
                            Dir := "/etc";
                            Cmd_ctx := {| Deadline := Some 30000000000 |} |} ] |}).
Proof. split; reflexivity. Qed.

(** C4, as stated, fails: under a cap of four bytes the ten bytes that
    the process writes all reach the writer. *)
Lemma Run_output_exceeds_cap :
  MaxOutputSize (Policy (config capRunner)) = 4 ∧
  stdout (Run (H := toyHost) capRunner background ["ls"] start).2 = "0123456789" ∧
  (4 < String.length (stdout (Run (H := toyHost) capRunner background ["ls"] start).2))%nat.
Proof. split; [reflexivity|]. split; [reflexivity|]. vm_compute. lia. Qed.

(** C7, as stated, fails: with [maxExecutionTime] at 0 a script runs
    without any deadline, its sub-command is launched under the caller's
    context. *)
Lemma RunScript_without_deadline :
  MaxExecutionTime (Policy (config unlimitedRunner)) = 0 ∧
  ¬ ∃ d, ∀ c, Start c ∈ events_of (RunScript (H := toyHost) unlimitedRunner background "ls") start →
              Deadline (Cmd_ctx c) = Some d.
Proof.
  split; [reflexivity|]. intros [d Hd].
  specialize (Hd {| Path := "ls"; Args := ["ls"]; Env := Some ["LANG=C"];
                    Dir := "/tmp"; Cmd_ctx := background |}).
  assert (events_of (RunScript (H := toyHost) unlimitedRunner background "ls") start
          = [ Validate "ls"; NewInterp ["LANG=C"]; LogCommandAttempt "ls" [] true;
              Start {| Path := "ls"; Args := ["ls"]; Env := Some ["LANG=C"];
                       Dir := "/tmp"; Cmd_ctx := background |} ]) as Hev
    by reflexivity.
  rewrite Hev in Hd. discriminate Hd. by repeat constructor.
Qed.

End Counterexamples.

(** ** The amended properties at concrete inputs *)


Lemma restricted_environment_witness :
  Env (Run_command Samples.rmRunner Samples.background 0 "ls" []) = Some ["LANG=C"] ∧
  uses_parent_environment
    (Run_command Samples.rmRunner Samples.background 0 "ls" []) = false.
Proof.
  apply (proj1 (restricted_environment (host := Samples.toyHost) Samples.rmRunner
                  Samples.background Samples.start) ["ls"]).
  vm_compute. by repeat constructor.
Defined.

Lemma working_directory_unchecked_witness :
  Dir (Run_command Samples.etcRunner Samples.background 0 "ls" []) = "/etc".
Proof.
  apply (proj1 (proj2 (proj2
           (working_directory_unchecked (host := Samples.toyHost) Samples.etcRunner
              Samples.background Samples.start))) ["ls"]).
  vm_compute. by repeat constructor.
Defined.

Lemma output_uncapped_witness :
  stdout (Run (H := Samples.toyHost) Samples.capRunner Samples.background ["ls"]
            Samples.start).2 = "0123456789".
Proof.
  apply (proj1 (output_uncapped (host := Samples.toyHost) Samples.capRunner
                  Samples.background Samples.start) "ls" []).
  reflexivity.
Defined.

Lemma script_deadline_witness :
  Deadline (Run_ctx Samples.rmRunner {| Deadline := Some 40000000000 |} 5)
  = Some (Z.min 40000000000 (5 + seconds 30)).
Proof.
  apply (proj1 (proj2 (proj2 (proj2
           (script_deadline (host := Samples.toyHost) Samples.rmRunner
              {| Deadline := Some 40000000000 |} "ls;ls" Samples.start))))).
  vm_compute. reflexivity.
Defined.

(** * Further properties of the policy *)
Section PolicyMore.

Lemma IsCommandAllowed_range_app l1 l2 cmd :
  IsCommandAllowed_range (l1 ++ l2)%list cmd
  = IsCommandAllowed_range l1 cmd || IsCommandAllowed_range l2 cmd.
Proof.
  induction l1 as [|a l1 IH]; simpl; [done|].
  by destruct (String.eqb (Command a) cmd).
Qed.

(** X1.  After [AddAllowedCommand c cmd] the allow check answers yes for
    [cmd] and, for every other command, what it answered before. *)
Theorem AddAllowedCommand_lookup (c : ShellCommandConfig) (cmd x : string) :
  IsCommandAllowed (AddAllowedCommand c cmd) x
  = IsCommandAllowed c x || String.eqb cmd x.
Proof.
  unfold AddAllowedCommand.
  destruct (IsCommandAllowed c cmd) eqn:Hc; simpl.
  - destruct (String.eqb_spec cmd x) as [<-|_].
    + by rewrite Hc.
    + by rewrite orb_false_r.
  - unfold IsCommandAllowed. simpl. rewrite IsCommandAllowed_range_app. simpl.
    by destruct (String.eqb cmd x).
Qed.

(** X2.  [AddAllowedCommand] leaves a configuration that already allows
    the command as it is, so adding the same command twice is adding it
    once. *)
Theorem AddAllowedCommand_idempotent (c : ShellCommandConfig) (cmd : string) :
  (IsCommandAllowed c cmd = true → AddAllowedCommand c cmd = c) ∧
  AddAllowedCommand (AddAllowedCommand c cmd) cmd = AddAllowedCommand c cmd.
Proof.
  assert (∀ c', IsCommandAllowed c' cmd = true → AddAllowedCommand c' cmd = c') as H.
  { intros c' Hc. unfold AddAllowedCommand. by rewrite Hc. }
  split; [apply H|]. apply H.
  unfold AddAllowedCommand.
  destruct (IsCommandAllowed c cmd) eqn:Hc; simpl; [done|].
  unfold IsCommandAllowed. simpl. rewrite IsCommandAllowed_range_app. simpl.
  by rewrite String.eqb_refl, orb_true_r.
Qed.

(** X3.  [AddAllowedCommand] only ever appends one rule without
    subcommand constraints: the rules there before stay first, in order and
    unchanged, every other member of the configuration is untouched, and
    command names that were pairwise distinct stay so. *)
Theorem AddAllowedCommand_preserves (c : ShellCommandConfig) (cmd : string) :
  let c' := AddAllowedCommand c cmd in
  (AllowCommands c' = AllowCommands c ∨
   AllowCommands c' = (AllowCommands c ++ [Build_AllowCommand cmd None None])%list) ∧
  AllowedDirectories c' = AllowedDirectories c ∧
  DenyCommands c' = DenyCommands c ∧
  DefaultErrorMessage c' = DefaultErrorMessage c ∧
  BlockLogPath c' = BlockLogPath c ∧
  MaxExecutionTime c' = MaxExecutionTime c ∧
  MaxOutputSize c' = MaxOutputSize c ∧
  (NoDup (Command <$> AllowCommands c) → NoDup (Command <$> AllowCommands c')).
Proof.
  cbv zeta. unfold AddAllowedCommand.
  destruct (IsCommandAllowed c cmd) eqn:Hc; simpl.
  { repeat split; auto. }
  repeat split; auto. intros Hnd.
  rewrite fmap_app. apply NoDup_app. split; [done|]. split.
  - intros x Hx [->|[]%elem_of_nil]%elem_of_cons.
    apply IsCommandAllowed_elem in Hx. simpl in Hx. congruence.
  - apply NoDup_singleton.
Qed.

Lemma Unmarshal_elems_Forall2 {A} (f : Value → result A) (l : list Value) xs :
  Unmarshal_elems f l = Ok xs ↔ Forall2 (λ v x, f v = Ok x) l xs.
Proof.
  revert xs. induction l as [|v l IH]; intros xs; simpl.
  - split; [intros [= <-]; constructor | by intros ->%Forall2_nil_inv_l].
  - split.
    + intros (x & Hx & (xs' & Hxs & [= <-])%bind_Ok)%bind_Ok.
      constructor; [done | by apply IH].
    + intros (x & xs' & Hx & Hxs & ->)%Forall2_cons_inv_l.
      rewrite Hx. csimpl. apply IH in Hxs. by rewrite Hxs.
Qed.

Lemma Unmarshal_elems_Err {A} (f : Value → result A) (l : list Value) v :
  v ∈ l → is_Ok (f v) = false → is_Ok (Unmarshal_elems f l) = false.
Proof.
  intros Hin Hv. induction Hin as [v l|v v' l Hin IH]; simpl.
  - by destruct (f v).
  - specialize (IH Hv). destruct (f v'); [|done]. csimpl.
    by destruct (Unmarshal_elems f l).
Qed.

(** X4.  A rule written as a bare string and a rule written as an object
    with only a [command] member decode to the same rule, for allow and
    for deny lists alike. *)
Theorem Unmarshal_bare_strings (l : list string) :
  UnmarshalAllowCommands (Some (Arr (Str <$> l)))
  = Ok ((λ s, Build_AllowCommand s None None) <$> l) ∧
  UnmarshalAllowCommands (Some (Arr ((λ s, Obj [("command", Str s)]) <$> l)))
  = Ok ((λ s, Build_AllowCommand s None None) <$> l) ∧
  UnmarshalDenyCommands (Some (Arr (Str <$> l)))
  = Ok ((λ s, Build_DenyCommand s "") <$> l) ∧
  UnmarshalDenyCommands (Some (Arr ((λ s, Obj [("command", Str s)]) <$> l)))
  = Ok ((λ s, Build_DenyCommand s "") <$> l).
Proof.
  unfold UnmarshalAllowCommands, UnmarshalDenyCommands. csimpl.
  repeat split; apply Unmarshal_elems_fmap; intros s; reflexivity.
Qed.

(** X5.  A rule list with an entry that is neither a string nor an
    object nor [null] (a number, a boolean, an array) is rejected, and so
    is a rule list that is itself neither an array nor [null]. *)
Theorem Unmarshal_rules_type_error (data : Value) :
  (∃ l v, data = Arr l ∧ v ∈ l ∧ is_rule v = false) ∨ is_rule_list data = false →
  is_Ok (UnmarshalAllowCommands (Some data)) = false ∧
  is_Ok (UnmarshalDenyCommands (Some data)) = false.
Proof.
  unfold UnmarshalAllowCommands, UnmarshalDenyCommands.
  intros [(l & v & -> & Hin & Hk)|Hk]; csimpl.
  - split; apply (Unmarshal_elems_Err _ _ v Hin); by destruct v.
  - by destruct data.
Qed.

(** X6.  A rule list that decodes gives one rule for each entry of the
    array, in the order of the document, each the decoding of its own
    entry. *)
Theorem UnmarshalAllowCommands_entries (l : list Value) (rules : list AllowCommand) :
  UnmarshalAllowCommands (Some (Arr l)) = Ok rules →
  length rules = length l ∧
  ∀ i v, l !! i = Some v →
         ∃ rule, rules !! i = Some rule ∧ UnmarshalAllowCommand v = Ok rule.
Proof.
  unfold UnmarshalAllowCommands. csimpl. intros HF%Unmarshal_elems_Forall2.
  split; [symmetry; by eapply Forall2_length|].
  intros i v Hi. destruct (Forall2_lookup_l _ _ _ _ _ HF Hi) as (rule & ? & ?).
  eauto.
Qed.

(** X10.  Only a JSON object decodes to a policy: [null], an array, a
    string, a number or a boolean at the top of the file is an error. *)
Theorem UnmarshalJSON_object (data : Value) (c : ShellCommandConfig) :
  UnmarshalJSON data = Ok c → ∃ members, data = Obj members.
Proof.
  destruct data; try done; eauto.
Qed.

Lemma Unmarshal_members_Err {A} (member : A → string → Value → result A)
    (kvs : list (string * Value)) (k : string) (v : Value) :
  (k, v) ∈ kvs → (∀ a, is_Ok (member a k v) = false) →
  ∀ acc, is_Ok (Unmarshal_members member kvs acc) = false.
Proof.
  intros Hin Hbad. induction kvs as [|[k0 v0] kvs IH]; intros acc; simpl.
  { by apply elem_of_nil in Hin. }
  apply elem_of_cons in Hin as [[= <- <-]|Hin].
  - specialize (Hbad acc). by destruct (member acc k v).
  - destruct (member acc k0 v0); [|done]. csimpl. by apply IH.
Qed.

Lemma rawConfig_member_allow_set r k v r' :
  matches "allowCommands" k = true →
  rawConfig_member r k v = Ok r' → raw_AllowCommands r' = Some v.
Proof.
  intros Hk. destruct r as [ad ac dc dm bl mt mo]. select_member Hk.
  by intros [= <-].
Qed.

Lemma rawConfig_member_deny_set r k v r' :
  matches "denyCommands" k = true →
  rawConfig_member r k v = Ok r' → raw_DenyCommands r' = Some v.
Proof.
  intros Hk. destruct r as [ad ac dc dm bl mt mo]. select_member Hk.
  by intros [= <-].
Qed.

Lemma rawConfig_member_int_Err r k v :
  matches "maxExecutionTime" k = true ∨ matches "maxOutputSize" k = true →
  is_Ok (Unmarshal_int v 0) = false → is_Ok (rawConfig_member r k v) = false.
Proof.
  intros Hk Hv. destruct r as [ad ac dc dm bl mt mo].
  assert (∀ cur, is_Ok (Unmarshal_int v cur) = false) as Hv'.
  { intros cur. by destruct v. }
  destruct Hk as [Hk|Hk]; select_member Hk.
  - specialize (Hv' mt). by destruct (Unmarshal_int v mt).
  - specialize (Hv' mo). by destruct (Unmarshal_int v mo).
Qed.

Lemma UnmarshalJSON_raw members c :
  UnmarshalJSON (Obj members) = Ok c →
  ∃ raw, Unmarshal_members rawConfig_member members rawConfig_zero = Ok raw ∧
         MaxExecutionTime c
         = (if 0 <? raw_MaxExecutionTime raw then raw_MaxExecutionTime raw
            else DefaultExecutionTimeout) ∧
         MaxOutputSize c
         = (if 0 <? raw_MaxOutputSize raw then raw_MaxOutputSize raw
            else DefaultMaxOutputSize) ∧
         UnmarshalAllowCommands (raw_AllowCommands raw) = Ok (AllowCommands c) ∧
         UnmarshalDenyCommands (raw_DenyCommands raw) = Ok (DenyCommands c).
Proof.
  unfold UnmarshalJSON.
  intros (raw & Hraw & (ac & Hac & (dc & Hdc & [= <-])%bind_Ok)%bind_Ok)%bind_Ok.
  exists raw. simpl. repeat split; try done.
  - by destruct (UnmarshalAllowCommands _).
  - by destruct (UnmarshalDenyCommands _).
Qed.

(** X8.  The limit that counts is the one of the last member read as
    that limit: when it is a positive integer the policy has it, when it
    is zero or negative the policy has the default (30 seconds, 51200
    bytes). *)
Theorem UnmarshalJSON_limits (pre post : list (string * Value)) (k : string)
    (z : Z) (c : ShellCommandConfig) :
  UnmarshalJSON (Obj (pre ++ (k, Int z) :: post)%list) = Ok c →
  (matches "maxExecutionTime" k = true → omits "maxExecutionTime" post = true →
   MaxExecutionTime c = if 0 <? z then z else 30) ∧
  (matches "maxOutputSize" k = true → omits "maxOutputSize" post = true →
   MaxOutputSize c = if 0 <? z then z else 51200).
Proof.
  intros (raw & Hraw & Ht & Ho & _)%UnmarshalJSON_raw.
  rewrite Unmarshal_members_app in Hraw.
  apply bind_Ok in Hraw as (r1 & _ & Hraw). simpl in Hraw.
  apply bind_Ok in Hraw as (r2 & Hk & Hpost).
  split; intros Hm Hom.
  - rewrite Ht. assert (raw_MaxExecutionTime raw = z) as ->; [|done].
    rewrite <- (rawConfig_member_time_set _ _ _ _ Hm Hk).
    apply (Unmarshal_members_ind rawConfig_member
             (λ r, raw_MaxExecutionTime r = raw_MaxExecutionTime r2) post)
      with (acc := r2); [|done..].
    intros a k' v' a' Hin Hmem <-.
    eapply rawConfig_member_time; eauto using omits_elem.
  - rewrite Ho. assert (raw_MaxOutputSize raw = z) as ->; [|done].
    rewrite <- (rawConfig_member_size_set _ _ _ _ Hm Hk).
    apply (Unmarshal_members_ind rawConfig_member
             (λ r, raw_MaxOutputSize r = raw_MaxOutputSize r2) post)
      with (acc := r2); [|done..].
    intros a k' v' a' Hin Hmem <-.
    eapply rawConfig_member_size; eauto using omits_elem.
Qed.

(** X9.  A file in which some member read as [maxExecutionTime] or as
    [maxOutputSize] is not an integer that fits an [int] (a string, a
    fraction, a boolean, ...) does not decode, wherever that member stands
    and whatever follows it. *)
Theorem UnmarshalJSON_limit_type_error (members : list (string * Value))
    (k : string) (v : Value) :
  (k, v) ∈ members →
  matches "maxExecutionTime" k = true ∨ matches "maxOutputSize" k = true →
  is_Ok (Unmarshal_int v 0) = false →
  is_Ok (UnmarshalJSON (Obj members)) = false.
Proof.
  intros Hin Hk Hv. unfold UnmarshalJSON, Unmarshal_struct.
  pose proof (Unmarshal_members_Err rawConfig_member members k v Hin
                (λ a, rawConfig_member_int_Err a k v Hk Hv) rawConfig_zero) as H.
  by destruct (Unmarshal_members rawConfig_member members rawConfig_zero).
Qed.

(** X11.  The rules of a decoded policy are those of the last member
    read as [allowCommands], and of the last member read as
    [denyCommands]: what earlier members of that name held is dropped. *)
Theorem UnmarshalJSON_rules (pre post : list (string * Value)) (k : string)
    (v : Value) (c : ShellCommandConfig) :
  UnmarshalJSON (Obj (pre ++ (k, v) :: post)%list) = Ok c →
  (matches "allowCommands" k = true → omits "allowCommands" post = true →
   UnmarshalAllowCommands (Some v) = Ok (AllowCommands c)) ∧
  (matches "denyCommands" k = true → omits "denyCommands" post = true →
   UnmarshalDenyCommands (Some v) = Ok (DenyCommands c)).
Proof.
  intros (raw & Hraw & _ & _ & Ha & Hd)%UnmarshalJSON_raw.
  rewrite Unmarshal_members_app in Hraw.
  apply bind_Ok in Hraw as (r1 & _ & Hraw). simpl in Hraw.
  apply bind_Ok in Hraw as (r2 & Hk & Hpost).
  split; intros Hm Hom.
  - rewrite <- Ha. f_equal. rewrite <- (rawConfig_member_allow_set _ _ _ _ Hm Hk).
    symmetry.
    apply (Unmarshal_members_ind rawConfig_member
             (λ r, raw_AllowCommands r = raw_AllowCommands r2) post)
      with (acc := r2); [|done..].
    intros a k' v' a' Hin Hmem <-.
    eapply rawConfig_member_allow; eauto using omits_elem.
  - rewrite <- Hd. f_equal. rewrite <- (rawConfig_member_deny_set _ _ _ _ Hm Hk).
    symmetry.
    apply (Unmarshal_members_ind rawConfig_member
             (λ r, raw_DenyCommands r = raw_DenyCommands r2) post)
      with (acc := r2); [|done..].
    intros a k' v' a' Hin Hmem <-.
    eapply rawConfig_member_deny; eauto using omits_elem.
Qed.

End PolicyMore.

(** * Further properties of the runner *)
Section RunnerMore.
Context `{host : Host}.
Local Open Scope list_scope.

Implicit Types (r : SafeRunner) (ctx : Ctx) (w : World) (c : Cmd).

Ltac unfold_M := unfold mbind, M_bind, mret, M_ret; simpl.

(** X12.  [Run] returns no error exactly when the command is allowed and
    the process it launched ended without error.  An error of the process
    is returned wrapped, and logged: the record of it is the last event
    of the call. *)
Theorem Run_result r ctx args w :
  ((Run r ctx args w).1 = None ↔
   ∃ cmd rest,
     args = cmd :: rest ∧
     ShellConfig_IsCommandAllowed (config r) cmd = true ∧
     exit_err (Cmd_Run (Run_command r ctx (now w) cmd rest)
                 (emit (LogCommandAttempt cmd rest true) w).2) = None) ∧
  (∀ cmd rest e,
     args = cmd :: rest →
     ShellConfig_IsCommandAllowed (config r) cmd = true →
     exit_err (Cmd_Run (Run_command r ctx (now w) cmd rest)
                 (emit (LogCommandAttempt cmd rest true) w).2) = Some e →
     (Run r ctx args w).1 = Some (wrapError "command execution error" (Some e)) ∧
     last (events_of (Run r ctx args) w)
     = Some (LogErrorf "Command execution error: %v" e)).
Proof.
  split.
  - destruct args as [|cmd rest].
    { split; [done | by intros (? & ? & ? & _)]. }
    destruct (ShellConfig_IsCommandAllowed (config r) cmd) eqn:Hc.
    + rewrite (Run_allowed _ _ _ _ _ Hc). cbv zeta. split.
      * intros Hres. exists cmd, rest. do 2 (split; [done|]).
        by destruct (exit_err _).
      * intros (? & ? & [= <- <-] & _ & ->). done.
    + rewrite (Run_denied _ _ _ _ _ Hc). split; [done|].
      intros (? & ? & [= <- <-] & ? & _). congruence.
  - intros cmd rest e -> Hc He. rewrite events_of_Run. unfold Run_events.
    rewrite (Run_allowed _ _ _ _ _ Hc), Hc. cbv zeta. by rewrite He.
Qed.

(** X13.  The process [Run] launches gets the argument vector as it was
    passed: the first element is the program, and [Args] is the whole
    vector, unchanged. *)
Theorem Run_passes_args r ctx args w c :
  Start c ∈ events_of (Run r ctx args) w →
  Args c = args ∧ head args = Some (Path c).
Proof. by intros (cmd & rest & -> & _ & ->)%Run_Start. Qed.

(** X14.  With a positive limit the process [Run] launches has a
    deadline: the earlier of the caller's deadline and the time of the
    call plus the limit, so [Run] never extends a deadline of its caller.
    With a limit that is not positive the process keeps the caller's
    context. *)
Theorem Run_deadline r ctx args w c :
  Start c ∈ events_of (Run r ctx args) w →
  let T := MaxExecutionTime (Policy (config r)) in
  (0 < T →
   Deadline (Cmd_ctx c)
   = Some match Deadline ctx with
          | Some cur => Z.min cur (now w + seconds T)
          | None => now w + seconds T
          end) ∧
  (T ≤ 0 → Cmd_ctx c = ctx).
Proof.
  intros (cmd & rest & -> & _ & ->)%Run_Start. cbv zeta. simpl.
  unfold Run_ctx, WithDeadline.
  destruct (Z.ltb_spec 0 (MaxExecutionTime (Policy (config r)))).
  - split; [intros _|lia]. destruct ctx as [[cur|]]; simpl; [|done].
    destruct (Z.ltb_spec cur (now w + seconds (MaxExecutionTime (Policy (config r)))));
      simpl; f_equal; lia.
  - split; [lia|done].
Qed.

(** X17.  A script launches a process only after every earlier stage
    went through: the validator accepted it without error, it parsed, and
    the interpreter was created. *)
Theorem RunScript_launch_needs r ctx script w c :
  Start c ∈ events_of (RunScript r ctx script) w →
  ValidateScript (validator r) script = (true, None) ∧
  is_Ok (Parse script) = true ∧
  interp_New (envPairs (RestrictedEnv (config r))) = None.
Proof.
  rewrite RunScript_events. cbv zeta.
  destruct (ValidateScript (validator r) script) as [valid err]. simpl.
  intros [?|Hin]%elem_of_cons; [done|].
  destruct valid; simpl in Hin; [|by apply elem_of_nil in Hin].
  destruct err as [e|]; simpl in Hin; [by apply elem_of_nil in Hin|].
  destruct (Parse script) as [prog|e].
  2:{ by apply list_elem_of_singleton in Hin. }
  apply elem_of_cons in Hin as [?|Hin]; [done|].
  destruct (interp_New _) as [e|]; [|done].
  by apply list_elem_of_singleton in Hin.
Qed.

(** X18.  [RunScript] returns no error exactly when the validator
    accepted the script without error, the script parsed, the interpreter
    was created and its run returned no error.  A script refused by the
    validator adds no log record; every later failure is returned wrapped
    and is logged, the record of the error being the last event of the
    call. *)
Theorem RunScript_result r ctx script w :
  let env := envPairs (RestrictedEnv (config r)) in
  let sctx := Run_ctx r ctx (RunScript_instant r script w) in
  ((RunScript r ctx script w).1 = None ↔
   ValidateScript (validator r) script = (true, None) ∧
   interp_New env = None ∧
   ∃ prog, Parse script = Ok prog ∧
           (interp (execHandler r) sctx (interp_Run env sctx prog)
              (RunScript_world r script w)).1 = None) ∧
  (∀ e, (RunScript r ctx script w).1 = Some e →
        (e = wrapError "script validation failed"
               (ValidateScript (validator r) script).2 ∧
         events_of (RunScript r ctx script) w = [Validate script]) ∨
        (∃ msg format inner,
           e = wrapError msg (Some inner) ∧
           last (events_of (RunScript r ctx script) w)
           = Some (LogErrorf format inner))).
Proof.
  cbv zeta. rewrite RunScript_events, RunScript_stages. cbv zeta.
  destruct (ValidateScript (validator r) script) as [valid err]. simpl.
  destruct valid; simpl.
  2:{ split; [split; [done | by intros ([= ] & _)]|]. intros e [= <-]. by left. }
  destruct err as [e0|]; simpl.
  { split; [split; [done | by intros ([= ] & _)]|]. intros e [= <-]. by left. }
  destruct (Parse script) as [prog|e0]; simpl.
  2:{ split; [split; [done | by intros (_ & _ & ? & [= ] & _)]|].
      intros e [= <-]. right. by eauto. }
  destruct (interp_New _) as [e0|]; simpl.
  { split; [split; [done | by intros (_ & [= ] & _)]|].
    intros e [= <-]. right. by eauto. }
  destruct (interp _ _ _ _).1 as [e0|] eqn:Hres; simpl.
  - split.
    + split; [done|]. intros (_ & _ & prog' & [= <-] & Hnone). congruence.
    + intros e [= <-]. right. do 3 eexists. split; [done|].
      by rewrite !app_comm_cons, last_snoc.
  - split; [|done]. split; [|done]. intros _. do 2 (split; [done|]).
    by exists prog.
Qed.

(** X19.  [RunScriptFile] launches a process only for a script that was
    read in full and that the validator accepted, and only for an allowed
    command; when reading fails it returns that error, wrapped, and its
    only event is the log record of it. *)
Theorem RunScriptFile_launches r ctx (read : result string) w :
  (∀ c, Start c ∈ events_of (RunScriptFile r ctx read) w →
        ∃ script, read = Ok script ∧
                  ValidateScript (validator r) script = (true, None) ∧
                  ShellConfig_IsCommandAllowed (config r) (Path c) = true) ∧
  (∀ e, read = Err e →
        (RunScriptFile r ctx read w).1
        = Some (wrapError "script reading error" (Some e)) ∧
        events_of (RunScriptFile r ctx read) w
        = [LogErrorf "Script reading error: %v" e]).
Proof.
  split.
  - intros c Hin. destruct read as [script|e]; simpl in Hin.
    + exists script. split; [done|]. split.
      * rewrite RunScript_events in Hin. cbv zeta in Hin.
        destruct (ValidateScript (validator r) script) as [valid err].
        simpl in Hin. apply elem_of_cons in Hin as [?|Hin]; [done|].
        destruct valid; simpl in Hin; [|by apply elem_of_nil in Hin].
        destruct err; simpl in Hin; [by apply elem_of_nil in Hin | done].
      * by apply RunScript_Start, launched_script in Hin as (? & _).
    + unfold events_of in Hin. simpl in Hin.
      rewrite drop_app_length in Hin. by apply list_elem_of_singleton in Hin.
  - intros e ->. split; [done|]. unfold events_of. simpl.
    by rewrite drop_app_length.
Qed.

End RunnerMore.

(** X15.  For a limit of up to 9223372036 seconds the timeout
    [time.Duration(n) * time.Second] is exactly [n] seconds; beyond that,
    up to 18446744073 seconds, the product overflows to a negative
    duration, so the deadline lies before the call. *)
Theorem seconds_exact (n : Z) :
  (0 ≤ n ≤ 9223372036 → seconds n = n * 1000000000) ∧
  (9223372036 < n ≤ 18446744073 → seconds n < 0).
Proof.
  unfold seconds, wrap64, Second. split; intros Hn.
  - rewrite Z.mod_small; lia.
  - assert ((n * 1000000000 + 2 ^ 63) mod 2 ^ 64
            = n * 1000000000 + 2 ^ 63 - 2 ^ 64) as ->; [|lia].
    symmetry. apply (Z.mod_unique_pos _ _ 1); lia.
Qed.

(** ** The further properties at concrete inputs *)

Lemma AddAllowedCommand_idempotent_witness :
  AddAllowedCommand NewDefaultConfig "ls" = NewDefaultConfig.
Proof.
  apply (proj1 (AddAllowedCommand_idempotent NewDefaultConfig "ls")). reflexivity.
Defined.

Lemma AddAllowedCommand_preserves_witness :
  NoDup (Command <$> AllowCommands (AddAllowedCommand NewDefaultConfig "grep")).
Proof.
  apply (AddAllowedCommand_preserves NewDefaultConfig "grep").
  apply (bool_decide_unpack _). vm_compute. exact I.
Defined.

Lemma Unmarshal_rules_type_error_witness :
  is_Ok (UnmarshalAllowCommands (Some (Arr [Str "ls"; Int 7]))) = false.
Proof.
  apply (Unmarshal_rules_type_error (Arr [Str "ls"; Int 7])).
  left. exists [Str "ls"; Int 7], (Int 7).
  split; [reflexivity|]. split; [|reflexivity]. apply list_elem_of_further, list_elem_of_here.
Defined.

Lemma UnmarshalAllowCommands_entries_witness :
  length [Build_AllowCommand "ls" None None; Build_AllowCommand "git" (Some ["status"]) None]
  = length [Str "ls"; Obj [("command", Str "git"); ("subCommands", Arr [Str "status"])]].
Proof.
  apply (UnmarshalAllowCommands_entries
           [Str "ls"; Obj [("command", Str "git"); ("subCommands", Arr [Str "status"])]]).
  reflexivity.
Defined.

Lemma UnmarshalJSON_limits_witness :
  ∃ c, UnmarshalJSON
         (Obj [("allowCommands", Arr [Str "ls"]); ("denyCommands", Arr []);
               ("maxExecutionTime", Int (-5))]) = Ok c ∧
       MaxExecutionTime c = 30.
Proof.
  eexists. split; [reflexivity|].
  apply (proj1 (UnmarshalJSON_limits
                  [("allowCommands", Arr [Str "ls"]); ("denyCommands", Arr [])] []
                  "maxExecutionTime" (-5) _ eq_refl)); reflexivity.
Defined.

Lemma UnmarshalJSON_limit_type_error_witness :
  is_Ok (UnmarshalJSON
           (Obj [("allowCommands", Arr [Str "ls"]); ("denyCommands", Arr []);
                 ("maxExecutionTime", Str "30")])) = false.
Proof.
  apply (UnmarshalJSON_limit_type_error _ "maxExecutionTime" (Str "30")).
  - do 2 apply list_elem_of_further. apply list_elem_of_here.
  - left. reflexivity.
  - reflexivity.
Defined.

Lemma UnmarshalJSON_object_witness :
  ∃ members, Samples.bareDoc = Obj members.
Proof. apply (UnmarshalJSON_object Samples.bareDoc _ eq_refl). Defined.

Lemma UnmarshalJSON_rules_witness :
  ∃ c, UnmarshalJSON
         (Obj [("allowCommands", Arr [Str "ls"]); ("denyCommands", Arr []);
               ("allowCommands", Arr [Str "cat"])]) = Ok c ∧
       UnmarshalAllowCommands (Some (Arr [Str "cat"])) = Ok (AllowCommands c).
Proof.
  eexists. split; [reflexivity|].
  apply (proj1 (UnmarshalJSON_rules
                  [("allowCommands", Arr [Str "ls"]); ("denyCommands", Arr [])] []
                  "allowCommands" (Arr [Str "cat"]) _ eq_refl)); reflexivity.
Defined.

Lemma Run_result_witness :
  (Run (H := Samples.toyHost) Samples.etcRunner Samples.background ["ls"; "-l"]
     Samples.start).1 = None.
Proof.
  apply (proj1 (Run_result (host := Samples.toyHost) Samples.etcRunner
                  Samples.background ["ls"; "-l"] Samples.start)).
  exists "ls", ["-l"]. repeat split; reflexivity.
Defined.

Lemma Run_passes_args_witness :
  Args (Run_command Samples.rmRunner Samples.background 0 "ls" ["-l"; "/tmp"])
  = ["ls"; "-l"; "/tmp"].
Proof.
  apply (Run_passes_args (host := Samples.toyHost) Samples.rmRunner
           Samples.background ["ls"; "-l"; "/tmp"] Samples.start).
  vm_compute. by repeat constructor.
Defined.

Lemma Run_deadline_witness :
  Deadline (Cmd_ctx (Run_command Samples.rmRunner {| Deadline := Some 5000000000 |}
                       0 "ls" []))
  = Some (Z.min 5000000000 (0 + seconds 30)).
Proof.
  apply (proj1 (Run_deadline (host := Samples.toyHost) Samples.rmRunner
                  {| Deadline := Some 5000000000 |} ["ls"] Samples.start _
                  ltac:(vm_compute; by repeat constructor))).
  reflexivity.
Defined.

Lemma seconds_exact_witness : seconds 30 = 30 * 1000000000.
Proof. apply (proj1 (seconds_exact 30)). lia. Defined.

Lemma RunScript_launch_needs_witness :
  ValidateScript (validator Samples.etcRunner) "ls;rm" = (true, None) ∧
  is_Ok (Parse (Host := Samples.toyHost) "ls;rm") = true ∧
  interp_New (Host := Samples.toyHost)
    (envPairs (RestrictedEnv (config Samples.etcRunner))) = None.
Proof.
  apply (RunScript_launch_needs (host := Samples.toyHost) Samples.etcRunner
           Samples.background "ls;rm" Samples.start
           (Run_command Samples.etcRunner
              (Run_ctx Samples.etcRunner Samples.background 5) 5 "ls" [])).
  vm_compute. by repeat constructor.
Defined.

Lemma RunScriptFile_launches_witness :
  events_of (RunScriptFile (H := Samples.toyHost) Samples.etcRunner
               Samples.background (Err (errorString "unexpected EOF")))
    Samples.start
  = [LogErrorf "Script reading error: %v" (errorString "unexpected EOF")].
Proof.
  apply (proj2 (RunScriptFile_launches (host := Samples.toyHost) Samples.etcRunner
                  Samples.background (Err (errorString "unexpected EOF"))
                  Samples.start) (errorString "unexpected EOF") eq_refl).
Defined.
